(** * Session search: text extraction, message search and snippet building

    A shallow embedding of the three pure functions of the session search
    modal ([getMessageText], [createSnippet], [searchMessages]) together
    with the parts of the JavaScript string library they call, followed by
    the display logic of the modal, the line logic of the collapsible code
    view and the duration text of the chat footer.

    JavaScript strings are sequences of UTF-16 code units; a code unit is
    modelled as an [N] and a string as a list of code units.  [toLowerCase]
    works on code points with the case data of Unicode 14.0, and treats the
    capital sigma by the Final_Sigma rule.  Indices and
    lengths are JavaScript numbers holding integers and are modelled as [Z],
    with [-1] as the "not found" value exactly as in the source. *)

From Stdlib Require Import List ZArith NArith Lia Bool String Ascii.
From Stdlib Require DecimalN.
Import ListNotations.

Open Scope Z_scope.

(** ** JavaScript strings *)

Module JS.

Definition jsstring : Type := list N.

(** A string literal of the source, written with ASCII characters only. *)
Fixpoint lit (s : string) : jsstring :=
  match s with
  | EmptyString => []
  | String c r => N_of_ascii c :: lit r
  end.

(** [s.length] *)
Definition len (s : jsstring) : Z := Z.of_nat (List.length s).

(** [Boolean(s)] on a string: the empty string is the only falsy one. *)
Definition truthy (s : jsstring) : bool :=
  match s with
  | [] => false
  | _ :: _ => true
  end.

Fixpoint eqs (a b : jsstring) : bool :=
  match a, b with
  | [], [] => true
  | x :: a', y :: b' => N.eqb x y && eqs a' b'
  | _, _ => false
  end.

(** [needle] occurs in [s] at position 0. *)
Fixpoint isPrefix (needle s : jsstring) : bool :=
  match needle, s with
  | [], _ => true
  | _ :: _, [] => false
  | x :: n', y :: s' => N.eqb x y && isPrefix n' s'
  end.

(** [s.indexOf(needle)]: the smallest position at which [needle] occurs in
    [s], or [-1].  The empty needle occurs at position 0 of every string. *)
Fixpoint indexOfFrom (needle s : jsstring) (i : Z) : Z :=
  if isPrefix needle s then i
  else match s with
       | [] => -1
       | _ :: t => indexOfFrom needle t (i + 1)
       end.

Definition indexOf (s needle : jsstring) : Z := indexOfFrom needle s 0.

(** [s.includes(needle)]: the same search, compared with [-1]. *)
Definition includes (s needle : jsstring) : bool :=
  negb (indexOf s needle =? -1).

(** [s.lastIndexOf(needle, position)]: the greatest position [k] with
    [k <= min(max(position, 0), s.length - needle.length)] at which [needle]
    occurs in [s], or [-1]. *)
Fixpoint lastIndexOfFrom (needle s : jsstring) (i start best : Z) : Z :=
  let best' := if (i <=? start) && isPrefix needle s then i else best in
  match s with
  | [] => best'
  | _ :: t => lastIndexOfFrom needle t (i + 1) start best'
  end.

Definition lastIndexOf (s needle : jsstring) (position : Z) : Z :=
  let start := Z.min (Z.max position 0) (len s - len needle) in
  lastIndexOfFrom needle s 0 start (-1).

(** Relative index of [slice]: a negative index counts from the end, and
    the result is clamped to [0 .. length]. *)
Definition sliceIndex (length k : Z) : Z :=
  if k <? 0 then Z.max (length + k) 0 else Z.min k length.

(** [s.slice(from, to)] *)
Definition slice (s : jsstring) (from to : Z) : jsstring :=
  let a := sliceIndex (len s) from in
  let b := sliceIndex (len s) to in
  firstn (Z.to_nat (b - a)) (skipn (Z.to_nat a) s).

(** [s.slice(from)] *)
Definition sliceFrom (s : jsstring) (from : Z) : jsstring :=
  slice s from (len s).

(** White space and line terminators, the code units [trim] removes. *)
Definition isWhiteSpace (c : N) : bool :=
  ((9 <=? c) && (c <=? 13) || (c =? 32) || (c =? 160) || (c =? 5760)
   || (8192 <=? c) && (c <=? 8202) || (c =? 8232) || (c =? 8233)
   || (c =? 8239) || (c =? 8287) || (c =? 12288) || (c =? 65279))%N.

Fixpoint trimStart (s : jsstring) : jsstring :=
  match s with
  | [] => []
  | c :: t => if isWhiteSpace c then trimStart t else s
  end.

Definition trimEnd (s : jsstring) : jsstring := rev (trimStart (rev s)).

(** [s.trim()] *)
Definition trim (s : jsstring) : jsstring := trimEnd (trimStart s).

(** ** Unicode case data

    The tables are those of Unicode 14.0.  An entry [(first, last, step,
    lower)] of [lowerCaseTable] maps the code points [first], [first + step],
    ..., [last] to [lower], [lower + step], ...: their lower-case mapping.
    U+0130 and U+03A3, whose lower case is not one fixed code point, are
    not in the table. *)
Definition lowerCaseTable : list (N * N * N * N) :=
(
  [(65, 90, 1, 97); (192, 214, 1, 224); (216, 222, 1, 248);
   (256, 302, 2, 257); (306, 310, 2, 307); (313, 327, 2, 314);
   (330, 374, 2, 331); (376, 376, 1, 255); (377, 381, 2, 378);
   (385, 385, 1, 595); (386, 388, 2, 387); (390, 390, 1, 596);
   (391, 391, 1, 392); (393, 394, 1, 598); (395, 395, 1, 396);
   (398, 398, 1, 477); (399, 399, 1, 601); (400, 400, 1, 603);
   (401, 401, 1, 402); (403, 403, 1, 608); (404, 404, 1, 611);
   (406, 406, 1, 617); (407, 407, 1, 616); (408, 408, 1, 409);
   (412, 412, 1, 623); (413, 413, 1, 626); (415, 415, 1, 629);
   (416, 420, 2, 417); (422, 422, 1, 640); (423, 423, 1, 424);
   (425, 425, 1, 643); (428, 428, 1, 429); (430, 430, 1, 648);
   (431, 431, 1, 432); (433, 434, 1, 650); (435, 437, 2, 436);
   (439, 439, 1, 658); (440, 440, 1, 441); (444, 444, 1, 445);
   (452, 452, 1, 454); (453, 453, 1, 454); (455, 455, 1, 457);
   (456, 456, 1, 457); (458, 458, 1, 460); (459, 475, 2, 460);
   (478, 494, 2, 479); (497, 497, 1, 499); (498, 500, 2, 499);
   (502, 502, 1, 405); (503, 503, 1, 447); (504, 542, 2, 505);
   (544, 544, 1, 414); (546, 562, 2, 547); (570, 570, 1, 11365);
   (571, 571, 1, 572); (573, 573, 1, 410); (574, 574, 1, 11366);
   (577, 577, 1, 578); (579, 579, 1, 384); (580, 580, 1, 649);
   (581, 581, 1, 652); (582, 590, 2, 583); (880, 882, 2, 881);
   (886, 886, 1, 887); (895, 895, 1, 1011); (902, 902, 1, 940);
   (904, 906, 1, 941); (908, 908, 1, 972); (910, 911, 1, 973);
   (913, 929, 1, 945); (932, 939, 1, 964); (975, 975, 1, 983);
   (984, 1006, 2, 985); (1012, 1012, 1, 952); (1015, 1015, 1, 1016);
   (1017, 1017, 1, 1010); (1018, 1018, 1, 1019); (1021, 1023, 1, 891);
   (1024, 1039, 1, 1104); (1040, 1071, 1, 1072); (1120, 1152, 2, 1121);
   (1162, 1214, 2, 1163); (1216, 1216, 1, 1231); (1217, 1229, 2, 1218);
   (1232, 1326, 2, 1233); (1329, 1366, 1, 1377); (4256, 4293, 1, 11520);
   (4295, 4295, 1, 11559); (4301, 4301, 1, 11565); (5024, 5103, 1, 43888);
   (5104, 5109, 1, 5112); (7312, 7354, 1, 4304); (7357, 7359, 1, 4349);
   (7680, 7828, 2, 7681); (7838, 7838, 1, 223); (7840, 7934, 2, 7841);
   (7944, 7951, 1, 7936); (7960, 7965, 1, 7952); (7976, 7983, 1, 7968);
   (7992, 7999, 1, 7984); (8008, 8013, 1, 8000); (8025, 8031, 2, 8017);
   (8040, 8047, 1, 8032); (8072, 8079, 1, 8064); (8088, 8095, 1, 8080);
   (8104, 8111, 1, 8096); (8120, 8121, 1, 8112); (8122, 8123, 1, 8048);
   (8124, 8124, 1, 8115); (8136, 8139, 1, 8050); (8140, 8140, 1, 8131);
   (8152, 8153, 1, 8144); (8154, 8155, 1, 8054); (8168, 8169, 1, 8160);
   (8170, 8171, 1, 8058); (8172, 8172, 1, 8165); (8184, 8185, 1, 8056);
   (8186, 8187, 1, 8060); (8188, 8188, 1, 8179); (8486, 8486, 1, 969);
   (8490, 8490, 1, 107); (8491, 8491, 1, 229); (8498, 8498, 1, 8526);
   (8544, 8559, 1, 8560); (8579, 8579, 1, 8580); (9398, 9423, 1, 9424);
   (11264, 11311, 1, 11312); (11360, 11360, 1, 11361);
   (11362, 11362, 1, 619); (11363, 11363, 1, 7549); (11364, 11364, 1, 637);
   (11367, 11371, 2, 11368); (11373, 11373, 1, 593); (11374, 11374, 1, 625);
   (11375, 11375, 1, 592); (11376, 11376, 1, 594); (11378, 11378, 1, 11379);
   (11381, 11381, 1, 11382); (11390, 11391, 1, 575);
   (11392, 11490, 2, 11393); (11499, 11501, 2, 11500);
   (11506, 11506, 1, 11507); (42560, 42604, 2, 42561);
   (42624, 42650, 2, 42625); (42786, 42798, 2, 42787);
   (42802, 42862, 2, 42803); (42873, 42875, 2, 42874);
   (42877, 42877, 1, 7545); (42878, 42886, 2, 42879);
   (42891, 42891, 1, 42892); (42893, 42893, 1, 613);
   (42896, 42898, 2, 42897); (42902, 42920, 2, 42903);
   (42922, 42922, 1, 614); (42923, 42923, 1, 604); (42924, 42924, 1, 609);
   (42925, 42925, 1, 620); (42926, 42926, 1, 618); (42928, 42928, 1, 670);
   (42929, 42929, 1, 647); (42930, 42930, 1, 669); (42931, 42931, 1, 43859);
   (42932, 42946, 2, 42933); (42948, 42948, 1, 42900);
   (42949, 42949, 1, 642); (42950, 42950, 1, 7566); (42951, 42953, 2, 42952);
   (42960, 42960, 1, 42961); (42966, 42968, 2, 42967);
   (42997, 42997, 1, 42998); (65313, 65338, 1, 65345);
   (66560, 66599, 1, 66600); (66736, 66771, 1, 66776);
   (66928, 66938, 1, 66967); (66940, 66954, 1, 66979);
   (66956, 66962, 1, 66995); (66964, 66965, 1, 67003);
   (68736, 68786, 1, 68800); (71840, 71871, 1, 71872);
   (93760, 93791, 1, 93792); (125184, 125217, 1, 125218)]
)%N.

(** The code points with the property Case_Ignorable, as ranges. *)
Definition caseIgnorableTable : list (N * N) :=
(
  [(39, 39); (46, 46); (58, 58); (94, 94); (96, 96); (168, 168); (173, 173);
   (175, 175); (180, 180); (183, 184); (688, 879); (884, 885); (890, 890);
   (900, 901); (903, 903); (1155, 1161); (1369, 1369); (1375, 1375);
   (1425, 1469); (1471, 1471); (1473, 1474); (1476, 1477); (1479, 1479);
   (1524, 1524); (1536, 1541); (1552, 1562); (1564, 1564); (1600, 1600);
   (1611, 1631); (1648, 1648); (1750, 1757); (1759, 1768); (1770, 1773);
   (1807, 1807); (1809, 1809); (1840, 1866); (1958, 1968); (2027, 2037);
   (2042, 2042); (2045, 2045); (2070, 2093); (2137, 2139); (2184, 2184);
   (2192, 2193); (2200, 2207); (2249, 2306); (2362, 2362); (2364, 2364);
   (2369, 2376); (2381, 2381); (2385, 2391); (2402, 2403); (2417, 2417);
   (2433, 2433); (2492, 2492); (2497, 2500); (2509, 2509); (2530, 2531);
   (2558, 2558); (2561, 2562); (2620, 2620); (2625, 2626); (2631, 2632);
   (2635, 2637); (2641, 2641); (2672, 2673); (2677, 2677); (2689, 2690);
   (2748, 2748); (2753, 2757); (2759, 2760); (2765, 2765); (2786, 2787);
   (2810, 2815); (2817, 2817); (2876, 2876); (2879, 2879); (2881, 2884);
   (2893, 2893); (2901, 2902); (2914, 2915); (2946, 2946); (3008, 3008);
   (3021, 3021); (3072, 3072); (3076, 3076); (3132, 3132); (3134, 3136);
   (3142, 3144); (3146, 3149); (3157, 3158); (3170, 3171); (3201, 3201);
   (3260, 3260); (3263, 3263); (3270, 3270); (3276, 3277); (3298, 3299);
   (3328, 3329); (3387, 3388); (3393, 3396); (3405, 3405); (3426, 3427);
   (3457, 3457); (3530, 3530); (3538, 3540); (3542, 3542); (3633, 3633);
   (3636, 3642); (3654, 3662); (3761, 3761); (3764, 3772); (3782, 3782);
   (3784, 3789); (3864, 3865); (3893, 3893); (3895, 3895); (3897, 3897);
   (3953, 3966); (3968, 3972); (3974, 3975); (3981, 3991); (3993, 4028);
   (4038, 4038); (4141, 4144); (4146, 4151); (4153, 4154); (4157, 4158);
   (4184, 4185); (4190, 4192); (4209, 4212); (4226, 4226); (4229, 4230);
   (4237, 4237); (4253, 4253); (4348, 4348); (4957, 4959); (5906, 5908);
   (5938, 5939); (5970, 5971); (6002, 6003); (6068, 6069); (6071, 6077);
   (6086, 6086); (6089, 6099); (6103, 6103); (6109, 6109); (6155, 6159);
   (6211, 6211); (6277, 6278); (6313, 6313); (6432, 6434); (6439, 6440);
   (6450, 6450); (6457, 6459); (6679, 6680); (6683, 6683); (6742, 6742);
   (6744, 6750); (6752, 6752); (6754, 6754); (6757, 6764); (6771, 6780);
   (6783, 6783); (6823, 6823); (6832, 6862); (6912, 6915); (6964, 6964);
   (6966, 6970); (6972, 6972); (6978, 6978); (7019, 7027); (7040, 7041);
   (7074, 7077); (7080, 7081); (7083, 7085); (7142, 7142); (7144, 7145);
   (7149, 7149); (7151, 7153); (7212, 7219); (7222, 7223); (7288, 7293);
   (7376, 7378); (7380, 7392); (7394, 7400); (7405, 7405); (7412, 7412);
   (7416, 7417); (7468, 7530); (7544, 7544); (7579, 7679); (8125, 8125);
   (8127, 8129); (8141, 8143); (8157, 8159); (8173, 8175); (8189, 8190);
   (8203, 8207); (8216, 8217); (8228, 8228); (8231, 8231); (8234, 8238);
   (8288, 8292); (8294, 8303); (8305, 8305); (8319, 8319); (8336, 8348);
   (8400, 8432); (11388, 11389); (11503, 11505); (11631, 11631);
   (11647, 11647); (11744, 11775); (11823, 11823); (12293, 12293);
   (12330, 12333); (12337, 12341); (12347, 12347); (12441, 12446);
   (12540, 12542); (40981, 40981); (42232, 42237); (42508, 42508);
   (42607, 42610); (42612, 42621); (42623, 42623); (42652, 42655);
   (42736, 42737); (42752, 42785); (42864, 42864); (42888, 42890);
   (42994, 42996); (43000, 43001); (43010, 43010); (43014, 43014);
   (43019, 43019); (43045, 43046); (43052, 43052); (43204, 43205);
   (43232, 43249); (43263, 43263); (43302, 43309); (43335, 43345);
   (43392, 43394); (43443, 43443); (43446, 43449); (43452, 43453);
   (43471, 43471); (43493, 43494); (43561, 43566); (43569, 43570);
   (43573, 43574); (43587, 43587); (43596, 43596); (43632, 43632);
   (43644, 43644); (43696, 43696); (43698, 43700); (43703, 43704);
   (43710, 43711); (43713, 43713); (43741, 43741); (43756, 43757);
   (43763, 43764); (43766, 43766); (43867, 43871); (43881, 43883);
   (44005, 44005); (44008, 44008); (44013, 44013); (64286, 64286);
   (64434, 64450); (65024, 65039); (65043, 65043); (65056, 65071);
   (65106, 65106); (65109, 65109); (65279, 65279); (65287, 65287);
   (65294, 65294); (65306, 65306); (65342, 65342); (65344, 65344);
   (65392, 65392); (65438, 65439); (65507, 65507); (65529, 65531);
   (66045, 66045); (66272, 66272); (66422, 66426); (67456, 67461);
   (67463, 67504); (67506, 67514); (68097, 68099); (68101, 68102);
   (68108, 68111); (68152, 68154); (68159, 68159); (68325, 68326);
   (68900, 68903); (69291, 69292); (69446, 69456); (69506, 69509);
   (69633, 69633); (69688, 69702); (69744, 69744); (69747, 69748);
   (69759, 69761); (69811, 69814); (69817, 69818); (69821, 69821);
   (69826, 69826); (69837, 69837); (69888, 69890); (69927, 69931);
   (69933, 69940); (70003, 70003); (70016, 70017); (70070, 70078);
   (70089, 70092); (70095, 70095); (70191, 70193); (70196, 70196);
   (70198, 70199); (70206, 70206); (70367, 70367); (70371, 70378);
   (70400, 70401); (70459, 70460); (70464, 70464); (70502, 70508);
   (70512, 70516); (70712, 70719); (70722, 70724); (70726, 70726);
   (70750, 70750); (70835, 70840); (70842, 70842); (70847, 70848);
   (70850, 70851); (71090, 71093); (71100, 71101); (71103, 71104);
   (71132, 71133); (71219, 71226); (71229, 71229); (71231, 71232);
   (71339, 71339); (71341, 71341); (71344, 71349); (71351, 71351);
   (71453, 71455); (71458, 71461); (71463, 71467); (71727, 71735);
   (71737, 71738); (71995, 71996); (71998, 71998); (72003, 72003);
   (72148, 72151); (72154, 72155); (72160, 72160); (72193, 72202);
   (72243, 72248); (72251, 72254); (72263, 72263); (72273, 72278);
   (72281, 72283); (72330, 72342); (72344, 72345); (72752, 72758);
   (72760, 72765); (72767, 72767); (72850, 72871); (72874, 72880);
   (72882, 72883); (72885, 72886); (73009, 73014); (73018, 73018);
   (73020, 73021); (73023, 73029); (73031, 73031); (73104, 73105);
   (73109, 73109); (73111, 73111); (73459, 73460); (78896, 78904);
   (92912, 92916); (92976, 92982); (92992, 92995); (94031, 94031);
   (94095, 94111); (94176, 94177); (94179, 94180); (110576, 110579);
   (110581, 110587); (110589, 110590); (113821, 113822); (113824, 113827);
   (118528, 118573); (118576, 118598); (119143, 119145); (119155, 119170);
   (119173, 119179); (119210, 119213); (119362, 119364); (121344, 121398);
   (121403, 121452); (121461, 121461); (121476, 121476); (121499, 121503);
   (121505, 121519); (122880, 122886); (122888, 122904); (122907, 122913);
   (122915, 122916); (122918, 122922); (123184, 123197); (123566, 123566);
   (123628, 123631); (125136, 125142); (125252, 125259); (127995, 127999);
   (917505, 917505); (917536, 917631); (917760, 917999)]
)%N.

(** The code points with the property Cased that are not Case_Ignorable,
    as ranges. *)
Definition casedTable : list (N * N) :=
(
  [(65, 90); (97, 122); (170, 170); (181, 181); (186, 186); (192, 214);
   (216, 246); (248, 442); (444, 447); (452, 659); (661, 687); (880, 883);
   (886, 887); (891, 893); (895, 895); (902, 902); (904, 906); (908, 908);
   (910, 929); (931, 1013); (1015, 1153); (1162, 1327); (1329, 1366);
   (1376, 1416); (4256, 4293); (4295, 4295); (4301, 4301); (4304, 4346);
   (4349, 4351); (5024, 5109); (5112, 5117); (7296, 7304); (7312, 7354);
   (7357, 7359); (7424, 7467); (7531, 7543); (7545, 7578); (7680, 7957);
   (7960, 7965); (7968, 8005); (8008, 8013); (8016, 8023); (8025, 8025);
   (8027, 8027); (8029, 8029); (8031, 8061); (8064, 8116); (8118, 8124);
   (8126, 8126); (8130, 8132); (8134, 8140); (8144, 8147); (8150, 8155);
   (8160, 8172); (8178, 8180); (8182, 8188); (8450, 8450); (8455, 8455);
   (8458, 8467); (8469, 8469); (8473, 8477); (8484, 8484); (8486, 8486);
   (8488, 8488); (8490, 8493); (8495, 8500); (8505, 8505); (8508, 8511);
   (8517, 8521); (8526, 8526); (8544, 8575); (8579, 8580); (9398, 9449);
   (11264, 11387); (11390, 11492); (11499, 11502); (11506, 11507);
   (11520, 11557); (11559, 11559); (11565, 11565); (42560, 42605);
   (42624, 42651); (42786, 42863); (42865, 42887); (42891, 42894);
   (42896, 42954); (42960, 42961); (42963, 42963); (42965, 42969);
   (42997, 42998); (43002, 43002); (43824, 43866); (43872, 43880);
   (43888, 43967); (64256, 64262); (64275, 64279); (65313, 65338);
   (65345, 65370); (66560, 66639); (66736, 66771); (66776, 66811);
   (66928, 66938); (66940, 66954); (66956, 66962); (66964, 66965);
   (66967, 66977); (66979, 66993); (66995, 67001); (67003, 67004);
   (68736, 68786); (68800, 68850); (71840, 71903); (93760, 93823);
   (119808, 119892); (119894, 119964); (119966, 119967); (119970, 119970);
   (119973, 119974); (119977, 119980); (119982, 119993); (119995, 119995);
   (119997, 120003); (120005, 120069); (120071, 120074); (120077, 120084);
   (120086, 120092); (120094, 120121); (120123, 120126); (120128, 120132);
   (120134, 120134); (120138, 120144); (120146, 120485); (120488, 120512);
   (120514, 120538); (120540, 120570); (120572, 120596); (120598, 120628);
   (120630, 120654); (120656, 120686); (120688, 120712); (120714, 120744);
   (120746, 120770); (120772, 120779); (122624, 122633); (122635, 122654);
   (125184, 125251); (127280, 127305); (127312, 127337); (127344, 127369)]
)%N.

Fixpoint inRanges (c : N) (ranges : list (N * N)) : bool :=
  match ranges with
  | [] => false
  | (first, last) :: rest =>
      ((first <=? c) && (c <=? last))%N || inRanges c rest
  end.

Fixpoint lowerIn (table : list (N * N * N * N)) (c : N) : N :=
  match table with
  | [] => c
  | (first, last, step, lower) :: rest =>
      if ((first <=? c) && (c <=? last) && ((c - first) mod step =? 0))%N
      then (lower + (c - first))%N
      else lowerIn rest c
  end.

(** The lower-case mapping of a code point other than U+0130 and U+03A3. *)
Definition lowerPoint (c : N) : N := lowerIn lowerCaseTable c.

Definition isCaseIgnorable (c : N) : bool := inRanges c caseIgnorableTable.

Definition isCased (c : N) : bool := inRanges c casedTable.

Definition isHighSurrogate (c : N) : bool := ((55296 <=? c) && (c <=? 56319))%N.

Definition isLowSurrogate (c : N) : bool := ((56320 <=? c) && (c <=? 57343))%N.

(** The code points of a string: a high surrogate followed by a low one
    stands for one code point from U+10000 on, every other code unit for
    itself.  [pending] is a high surrogate read and not yet used. *)
Fixpoint codePointsFrom (pending : option N) (s : jsstring) : list N :=
  match s with
  | [] => match pending with Some h => [h] | None => [] end
  | c :: t =>
      match pending with
      | Some h =>
          if isLowSurrogate c
          then (65536 + (h - 55296) * 1024 + (c - 56320))%N :: codePointsFrom None t
          else if isHighSurrogate c then h :: codePointsFrom (Some c) t
          else h :: c :: codePointsFrom None t
      | None =>
          if isHighSurrogate c then codePointsFrom (Some c) t
          else c :: codePointsFrom None t
      end
  end.

Definition codePoints (s : jsstring) : list N := codePointsFrom None s.

(** The code units of a code point; a value that is no code point is kept
    as it is. *)
Definition codeUnits (p : N) : jsstring :=
  (if (p <? 65536) || (1114111 <? p) then [p]
   else [55296 + (p - 65536) / 1024; 56320 + (p - 65536) mod 1024])%N.

(** The code points that follow are case-ignorable ones and then a cased
    letter. *)
Fixpoint followedByCased (ps : list N) : bool :=
  match ps with
  | [] => false
  | c :: rest => if isCaseIgnorable c then followedByCased rest else isCased c
  end.

(** Lower-casing of code points.  [afterCased] tells that the code points
    before are a cased letter and then case-ignorable ones.  U+03A3 (capital
    sigma) becomes the final sigma U+03C2 when it is after a cased letter
    and not before one, and U+03C3 otherwise; U+0130 becomes U+0069
    U+0307. *)
Fixpoint lowerPoints (afterCased : bool) (ps : list N) : list N :=
  match ps with
  | [] => []
  | c :: rest =>
      (if (c =? 931)%N then
         if afterCased && negb (followedByCased rest) then [962%N] else [963%N]
       else if (c =? 304)%N then [105%N; 775%N]
       else [lowerPoint c])
      ++ lowerPoints (if isCaseIgnorable c then afterCased else isCased c) rest
  end.

(** [s.toLowerCase()] *)
Definition toLowerCase (s : jsstring) : jsstring :=
  flat_map codeUnits (lowerPoints false (codePoints s)).

(** [parts.join(sep)] *)
Fixpoint join (sep : jsstring) (parts : list jsstring) : jsstring :=
  match parts with
  | [] => []
  | [p] => p
  | p :: rest => p ++ sep ++ join sep rest
  end.

End JS.

Import JS.

(** ** Messages *)

(** The tool of a tool-call message.  [name] and [description] may be
    absent ([null] or [undefined]). *)
Record ToolCall : Type := mkToolCall {
  name : option jsstring;
  description : option jsstring
}.

(** The event of an agent-event message, discriminated by its [type]. *)
Inductive AgentEvent : Type :=
| EventSwitch (mode : jsstring)
| EventMessage (message : jsstring)
| EventLimitReached (endsAt : Z)
| EventOther (type : jsstring).

Definition eventType (e : AgentEvent) : jsstring :=
  match e with
  | EventSwitch _ => lit "switch"
  | EventMessage _ => lit "message"
  | EventLimitReached _ => lit "limit-reached"
  | EventOther ty => ty
  end.

(** The part of a message that depends on its [kind]. *)
Inductive MessageBody : Type :=
| UserText (text : jsstring)
| AgentText (text : jsstring)
| ToolCallBody (tool : option ToolCall)
| AgentEventBody (event : AgentEvent)
| OtherKind (kind : jsstring).

Record Message : Type := mkMessage {
  id : jsstring;
  createdAt : Z;
  body : MessageBody
}.

Definition kind (m : Message) : jsstring :=
  match body m with
  | UserText _ => lit "user-text"
  | AgentText _ => lit "agent-text"
  | ToolCallBody _ => lit "tool-call"
  | AgentEventBody _ => lit "agent-event"
  | OtherKind k => k
  end.

Definition recognizedKind (k : jsstring) : bool :=
  eqs k (lit "user-text") || eqs k (lit "agent-text")
  || eqs k (lit "tool-call") || eqs k (lit "agent-event").

(** [.filter(Boolean)] on an array of possibly absent strings: absent and
    empty entries are dropped. *)
Fixpoint filterBoolean (parts : list (option jsstring)) : list jsstring :=
  match parts with
  | [] => []
  | Some p :: rest => if truthy p then p :: filterBoolean rest
                      else filterBoolean rest
  | None :: rest => filterBoolean rest
  end.

(** [message.tool?.name] and [message.tool?.description] *)
Definition toolName (t : option ToolCall) : option jsstring :=
  match t with Some tc => name tc | None => None end.

Definition toolDescription (t : option ToolCall) : option jsstring :=
  match t with Some tc => description tc | None => None end.

Definition getMessageText (message : Message) : jsstring :=
  match body message with
  | UserText text => text
  | AgentText text => text
  | ToolCallBody tool =>
      let toolText :=
        join (lit " ") (filterBoolean [toolName tool; toolDescription tool]) in
      toolText
  | AgentEventBody event =>
      match event with
      | EventMessage message => message
      | _ => []
      end
  | OtherKind _ => []
  end.

(** ** Snippets *)

Record Snippet : Type := mkSnippet {
  snippet : jsstring;
  matchStart : Z;
  matchEnd : Z
}.

Definition ellipsis : jsstring := lit "...".

(** [Math.floor((maxLength - query.length) / 2)] *)
Definition contextSize (query : jsstring) (maxLength : Z) : Z :=
  (maxLength - len query) / 2.

(** The bounds of the snippet before the word-boundary adjustment. *)
Definition initialStart (query : jsstring) (maxLength matchIndex : Z) : Z :=
  Z.max 0 (matchIndex - contextSize query maxLength).

Definition snippetEnd (text query : jsstring) (maxLength matchIndex : Z) : Z :=
  Z.min (len text) (matchIndex + len query + contextSize query maxLength).

(** The word-boundary adjustment of [start]. *)
Definition adjustStart (text : jsstring) (start : Z) : Z :=
  if 0 <? start then
    let spaceIndex := lastIndexOf text (lit " ") (start + 10) in
    if start - 10 <? spaceIndex then spaceIndex + 1 else start
  else start.

(** [text.slice(start, end)] with the ellipses added. *)
Definition excerpt (text : jsstring) (start end_ : Z) : jsstring :=
  let snippet := slice text start end_ in
  let snippet := if 0 <? start then ellipsis ++ snippet else snippet in
  let snippet := if end_ <? len text then snippet ++ ellipsis else snippet in
  snippet.

Definition createSnippet (text query : jsstring) (maxLength : Z) : Snippet :=
  let lowerText := toLowerCase text in
  let lowerQuery := toLowerCase query in
  let matchIndex := indexOf lowerText lowerQuery in
  if matchIndex =? -1 then
    mkSnippet (slice text 0 maxLength) (-1) (-1)
  else
    let start := initialStart query maxLength matchIndex in
    let end_ := snippetEnd text query maxLength matchIndex in
    let start := adjustStart text start in
    let snippet := excerpt text start end_ in
    let snippetMatchIndex := indexOf (toLowerCase snippet) lowerQuery in
    mkSnippet snippet snippetMatchIndex (snippetMatchIndex + len query).

(** The default value of the [maxLength] parameter. *)
Definition defaultMaxLength : Z := 100.

(** ** Search *)

(** The fields [snippet], [matchStart] and [matchEnd] of the source carry
    the prefix [result] here, to keep them apart from those of [Snippet]. *)
Record SearchResult : Type := mkSearchResult {
  message : Message;
  resultSnippet : jsstring;
  resultMatchStart : Z;
  resultMatchEnd : Z
}.

(** One iteration of the loop of [searchMessages]. *)
Definition searchStep (query lowerQuery : jsstring)
    (results : list SearchResult) (message : Message) : list SearchResult :=
  let text := getMessageText message in
  if negb (truthy text) then results
  else if includes (toLowerCase text) lowerQuery then
    let s := createSnippet text query defaultMaxLength in
    results ++ [mkSearchResult message (snippet s) (matchStart s) (matchEnd s)]
  else results.

Definition searchMessages (messages : list Message) (query : jsstring)
    : list SearchResult :=
  if negb (truthy (trim query)) then []
  else
    let lowerQuery := toLowerCase query in
    fold_left (searchStep query lowerQuery) messages [].

(** The three parts in which a result is displayed, the middle one
    highlighted; a result with a negative [matchStart] is displayed as the
    snippet alone. *)
Definition highlightParts (r : SearchResult) : list jsstring :=
  if 0 <=? resultMatchStart r then
    [slice (resultSnippet r) 0 (resultMatchStart r);
     slice (resultSnippet r) (resultMatchStart r) (resultMatchEnd r);
     sliceFrom (resultSnippet r) (resultMatchEnd r)]
  else [resultSnippet r].

(** ** Messages and texts used in the examples *)

Definition userMessage (i : jsstring) (text : jsstring) : Message :=
  mkMessage i 0 (UserText text).

Definition toolMessage (i : jsstring) (t : Z) (n d : option jsstring) : Message :=
  mkMessage i t (ToolCallBody (Some (mkToolCall n d))).

(** U+0130 followed by "stanbul is nice". *)
Definition istanbulText : jsstring := 304%N :: lit "stanbul is nice".

(** U+0130 followed by "stanbul". *)
Definition istanbulWord : jsstring := 304%N :: lit "stanbul".

Definition longQuery : jsstring :=
  lit "a quick brown fox jumps over the lazy dog while the cat sleeps in the warm afternoon sun".

Definition transcriptText : jsstring :=
  lit "Transcript: A quick brown fox jumps over the lazy dog while the cat sleeps in the warm afternoon sun. The end.".

(** Capital alpha, capital sigma, capital alpha, and its first two letters. *)
Definition alphaSigmaAlpha : jsstring := [913; 931; 913]%N.

Definition alphaSigma : jsstring := [913; 931]%N.

Definition barnText : jsstring :=
  lit "I was reading about foxes when I remembered that the old barn had a needle in the haystack".

(** ** Vocabulary of the statements *)

(** [needle] occurs in [s] at position [k]. *)
Definition occursAt (needle s : jsstring) (k : Z) : Prop :=
  exists p r, s = p ++ needle ++ r /\ len p = k.

(** A part of the tool text that is present: neither absent nor empty. *)
Definition presentPart (p : option jsstring) : option jsstring :=
  match p with
  | Some (c :: s) => Some (c :: s)
  | _ => None
  end.

(** The lower-cased query occurs in the lower-cased text. *)
Definition containsLowerCased (text query : jsstring) : Prop :=
  exists p r, toLowerCase text = p ++ toLowerCase query ++ r.

(** The result built for a message that matches the query. *)
Definition resultFor (query : jsstring) (m : Message) : SearchResult :=
  let s := createSnippet (getMessageText m) query defaultMaxLength in
  mkSearchResult m (snippet s) (matchStart s) (matchEnd s).

Definition matchesQuery (query : jsstring) (m : Message) : bool :=
  includes (toLowerCase (getMessageText m)) (toLowerCase query).

Definition space : N := 32%N.

(** The character of [text] at position [k] is a space. *)
Definition spaceAt (text : jsstring) (k : Z) : Prop :=
  0 <= k /\ nth_error text (Z.to_nat k) = Some space.

(** [s] is the position of the nearest space at or before position [p]. *)
Definition nearestSpace (text : jsstring) (p s : Z) : Prop :=
  spaceAt text s /\ s <= p /\ forall k, s < k <= p -> ~ spaceAt text k.

(** The code units that are white space, as ranges. *)
Definition whiteSpaceRanges : list (N * N) :=
  [(9, 13); (32, 32); (160, 160); (5760, 5760); (8192, 8202); (8232, 8233);
   (8239, 8239); (8287, 8287); (12288, 12288); (65279, 65279)]%N.

(** No range of the list meets the interval from [a] to [b]. *)
Definition clearOf (ranges : list (N * N)) (a b : N) : bool :=
  forallb (fun r => ((b <? fst r) || (snd r <? a))%N) ranges.

(** A code unit on which lower-casing does not depend on the context and
    gives one code unit: a code unit of the Basic Multilingual Plane that
    is no surrogate, not U+0130 and not U+03A3. *)
Definition plainUnit (c : N) : bool :=
  ((c <? 65536) && negb ((55296 <=? c) && (c <=? 57343))
   && negb (c =? 304) && negb (c =? 931))%N.

Definition plainCase (s : jsstring) : Prop := forallb plainUnit s = true.

(** An entry of the table maps no white space and maps to no white space. *)
Definition entryClear (e : N * N * N * N) : bool :=
  let '(first, last, step, lower) := e in
  (clearOf whiteSpaceRanges first last
   && clearOf whiteSpaceRanges lower (lower + (last - first)))%N.

Definition entryBmp (e : N * N * N * N) : bool :=
  let '(first, last, step, lower) := e in
  ((65536 <=? first) || ((last <? 65536) && (lower + (last - first) <? 65536)))%N.

(** ** The results panel of the search modal *)

(** What the modal shows below the search bar: the list of results with
    their count, the "no results" state, or the hint to type a query. *)
Inductive Panel : Type :=
| PanelResults (count : Z) (items : list SearchResult)
| PanelNoResults
| PanelHint.

Definition resultsPanel (messages : list Message) (query : jsstring) : Panel :=
  let results := searchMessages messages query in
  if 0 <? len query then
    if 0 <? Z.of_nat (List.length results)
    then PanelResults (Z.of_nat (List.length results)) results
    else PanelNoResults
  else PanelHint.

(** The label of a result: who wrote the message. *)
Definition messageType (m : Message) : jsstring :=
  if eqs (kind m) (lit "user-text") then lit "You"
  else if eqs (kind m) (lit "agent-text") then lit "Agent"
  else lit "Tool".

(** [keyExtractor] of the result list. *)
Definition resultKey (item : SearchResult) : jsstring := id (message item).

(** ** The collapsible code view *)

Definition newline : N := 10%N.

(** [s.split(sep)] for a separator of one code unit: the pieces between the
    separators, at least one piece. *)
Fixpoint split (sep : N) (s : jsstring) : list jsstring :=
  match s with
  | [] => [[]]
  | c :: t =>
      if N.eqb c sep then [] :: split sep t
      else match split sep t with
           | piece :: rest => (c :: piece) :: rest
           | [] => [[c]]
           end
  end.

(** [array.slice(from, to)], with the relative indices of [slice]. *)
Definition arraySlice {A : Type} (l : list A) (from to : Z) : list A :=
  let n := Z.of_nat (List.length l) in
  let a := sliceIndex n from in
  let b := sliceIndex n to in
  firstn (Z.to_nat (b - a)) (skipn (Z.to_nat a) l).

Definition codeLines (code : jsstring) : list jsstring := split newline code.

Definition totalLines (code : jsstring) : Z :=
  Z.of_nat (List.length (codeLines code)).

Definition shouldCollapse (code : jsstring) (collapsedLines : Z) : bool :=
  collapsedLines <? totalLines code.

(** The default value of the [collapsedLines] property. *)
Definition defaultCollapsedLines : Z := 20.

Definition displayCode (code : jsstring) (collapsedLines : Z) (isExpanded : bool)
    : jsstring :=
  if negb (shouldCollapse code collapsedLines) || isExpanded then code
  else join [newline] (arraySlice (codeLines code) 0 collapsedLines).

(** The number of lines announced on the "show more" button. *)
Definition hiddenLines (code : jsstring) (collapsedLines : Z) : Z :=
  totalLines code - collapsedLines.

(** ** The chat footer: elapsed time *)

(** Numbers are JavaScript numbers holding integers of the safe range,
    modelled as [Z]. *)
Definition maxSafeInteger : Z := 9007199254740991.

Fixpoint digitUnits (d : Decimal.uint) : jsstring :=
  match d with
  | Decimal.Nil => []
  | Decimal.D0 r => 48%N :: digitUnits r
  | Decimal.D1 r => 49%N :: digitUnits r
  | Decimal.D2 r => 50%N :: digitUnits r
  | Decimal.D3 r => 51%N :: digitUnits r
  | Decimal.D4 r => 52%N :: digitUnits r
  | Decimal.D5 r => 53%N :: digitUnits r
  | Decimal.D6 r => 54%N :: digitUnits r
  | Decimal.D7 r => 55%N :: digitUnits r
  | Decimal.D8 r => 56%N :: digitUnits r
  | Decimal.D9 r => 57%N :: digitUnits r
  end.

(** [String(n)] for an integer [n], as a template literal inserts it: the
    decimal digits, behind a minus sign when [n] is negative. *)
Definition numberToString (n : Z) : jsstring :=
  match n with
  | Zneg p => 45%N :: digitUnits (Pos.to_uint p)
  | _ => digitUnits (N.to_uint (Z.to_N n))
  end.

(** [seconds % 3600] is the remainder of the truncating division and
    [Math.floor(x / 3600)] the quotient of the flooring one. *)
Definition formatDuration (seconds : Z) : jsstring :=
  if seconds <? 0 then lit "0s"
  else
    let hours := seconds / 3600 in
    let minutes := Z.rem seconds 3600 / 60 in
    let secs := Z.rem seconds 60 in
    if 0 <? hours then
      numberToString hours ++ lit "h " ++ numberToString minutes ++ lit "m "
        ++ numberToString secs ++ lit "s"
    else if 0 <? minutes then
      numberToString minutes ++ lit "m " ++ numberToString secs ++ lit "s"
    else
      numberToString secs ++ lit "s".

(** [updateElapsed] of [useElapsedTime], with the value of [Date.now()] as
    a parameter: the new value of [elapsed].  The timestamps are integers
    of the safe range, on which the subtraction and the floored division of
    the source are exact. *)
Definition updateElapsed (startTimestamp now : Z) : Z :=
  let elapsedSeconds := (now - startTimestamp) / 1000 in
  Z.max 0 elapsedSeconds.

(** The text of a duration of [h] hours, [m] minutes and [s] seconds: the
    hours are left out when 0, and the minutes when the hours and the
    minutes are 0. *)
Definition durationText (h m s : Z) : jsstring :=
  (if 0 <? h then numberToString h ++ lit "h " else [])
  ++ (if (0 <? h) || (0 <? m) then numberToString m ++ lit "m " else [])
  ++ numberToString s ++ lit "s".

Definition isDigit (c : N) : bool := ((48 <=? c) && (c <=? 57))%N.

(** ** Facts about the string library *)

Lemma len_nonneg (s : jsstring) : 0 <= len s.
Proof. unfold len. lia. Qed.

Lemma len_app (a b : jsstring) : len (a ++ b) = len a + len b.
Proof. unfold len. rewrite length_app. lia. Qed.

Lemma len_cons (c : N) (s : jsstring) : len (c :: s) = 1 + len s.
Proof. unfold len. simpl List.length. lia. Qed.

Lemma eqs_eq (a b : jsstring) : eqs a b = true <-> a = b.
Proof.
  revert b. induction a as [|x a IH]; intros [|y b]; simpl; try (split; congruence).
  rewrite andb_true_iff, N.eqb_eq, IH. split.
  - intros [-> ->]. reflexivity.
  - intros H. injection H as -> ->. split; reflexivity.
Qed.

Lemma isPrefix_app (needle s : jsstring) :
  isPrefix needle s = true <-> exists r, s = needle ++ r.
Proof.
  revert s. induction needle as [|x n IH]; intros s; simpl.
  - split; [intros _; exists s; reflexivity | reflexivity].
  - destruct s as [|y s].
    + split; [discriminate | intros [r H]; discriminate].
    + rewrite andb_true_iff, N.eqb_eq, IH. split.
      * intros [-> [r ->]]. exists r. reflexivity.
      * intros [r H]. injection H as -> ->. split; [reflexivity | exists r; reflexivity].
Qed.

Lemma occursAt_range (needle s : jsstring) (k : Z) :
  occursAt needle s k -> 0 <= k /\ k + len needle <= len s.
Proof.
  intros (p & r & -> & <-). rewrite !len_app.
  pose proof (len_nonneg p). pose proof (len_nonneg r). lia.
Qed.

Lemma occursAt_zero (needle s : jsstring) :
  occursAt needle s 0 <-> isPrefix needle s = true.
Proof.
  rewrite isPrefix_app. split.
  - intros (p & r & -> & Hp). destruct p; [|rewrite len_cons in Hp; pose proof (len_nonneg p); lia].
    exists r. reflexivity.
  - intros [r ->]. exists [], r. split; reflexivity.
Qed.

Lemma occursAt_cons (needle s : jsstring) (c : N) (k : Z) :
  0 < k -> (occursAt needle (c :: s) k <-> occursAt needle s (k - 1)).
Proof.
  intros Hk. split.
  - intros (p & r & H & Hp). destruct p as [|d p]; [unfold len in Hp; simpl in Hp; lia|].
    simpl in H. injection H as -> ->. exists p, r. split; [reflexivity|].
    rewrite len_cons in Hp. lia.
  - intros (p & r & -> & Hp). exists (c :: p), r. split; [reflexivity|].
    rewrite len_cons. lia.
Qed.

(** [indexOf] finds the first occurrence. *)
Lemma indexOfFrom_found (needle s : jsstring) (i r : Z) :
  indexOfFrom needle s i = r -> r <> -1 -> 0 <= i ->
  i <= r /\ occursAt needle s (r - i) /\
  forall k, 0 <= k < r - i -> ~ occursAt needle s k.
Proof.
  revert i. induction s as [|c s IH]; intros i H Hr Hi; simpl in H.
  - destruct (isPrefix needle []) eqn:E; [|congruence]. subst r.
    replace (i - i) with 0 by lia. split; [lia|]. split.
    + apply occursAt_zero. exact E.
    + intros k Hk. lia.
  - destruct (isPrefix needle (c :: s)) eqn:E.
    + subst r. replace (i - i) with 0 by lia. split; [lia|]. split.
      * apply occursAt_zero. exact E.
      * intros k Hk. lia.
    + destruct (IH (i + 1) H Hr ltac:(lia)) as (Hle & Hocc & Hfirst).
      split; [lia|]. split.
      * apply occursAt_cons; [lia|]. replace (r - i - 1) with (r - (i + 1)) by lia. exact Hocc.
      * intros k Hk Hc. destruct (Z.eq_dec k 0) as [->|Hk0].
        -- apply occursAt_zero in Hc. congruence.
        -- apply occursAt_cons in Hc; [|lia]. apply (Hfirst (k - 1)); [lia | exact Hc].
Qed.

Lemma indexOfFrom_not_found (needle s : jsstring) (i : Z) :
  0 <= i -> indexOfFrom needle s i = -1 -> forall k, ~ occursAt needle s k.
Proof.
  revert i. induction s as [|c s IH]; intros i Hi H k Hocc; simpl in H.
  - destruct (isPrefix needle []) eqn:E; [lia|].
    destruct Hocc as (p & r & Hs & _). destruct p; [|discriminate].
    destruct needle; [discriminate E | discriminate Hs].
  - destruct (isPrefix needle (c :: s)) eqn:E; [lia|].
    pose proof (occursAt_range _ _ _ Hocc) as [Hk _].
    destruct (Z.eq_dec k 0) as [->|Hk0].
    + apply occursAt_zero in Hocc. congruence.
    + apply occursAt_cons in Hocc; [|lia]. exact (IH (i + 1) ltac:(lia) H _ Hocc).
Qed.

Lemma indexOf_found (s needle : jsstring) :
  indexOf s needle <> -1 ->
  occursAt needle s (indexOf s needle) /\
  forall k, 0 <= k < indexOf s needle -> ~ occursAt needle s k.
Proof.
  intros H. unfold indexOf in *.
  destruct (indexOfFrom_found needle s 0 _ eq_refl H ltac:(lia)) as (_ & Hocc & Hfirst).
  rewrite Z.sub_0_r in Hocc, Hfirst. split; assumption.
Qed.

Lemma indexOf_not_found (s needle : jsstring) :
  indexOf s needle = -1 <-> forall k, ~ occursAt needle s k.
Proof.
  split.
  - apply indexOfFrom_not_found. lia.
  - intros H. destruct (Z.eq_dec (indexOf s needle) (-1)) as [E|E]; [exact E|].
    destruct (indexOf_found _ _ E) as [Hocc _]. elim (H _ Hocc).
Qed.

Lemma indexOf_empty_needle (s : jsstring) : indexOf s [] = 0.
Proof. destruct s; reflexivity. Qed.

Lemma indexOf_empty_text (needle : jsstring) :
  needle <> [] -> indexOf [] needle = -1.
Proof. destruct needle; [congruence | reflexivity]. Qed.

(** [includes] decides whether the needle is a substring. *)
Lemma includes_substring (s needle : jsstring) :
  includes s needle = true <-> exists p r, s = p ++ needle ++ r.
Proof.
  unfold includes. rewrite negb_true_iff, Z.eqb_neq. split.
  - intros H. destruct (indexOf_found _ _ H) as [(p & r & Hs & _) _]. eauto.
  - intros (p & r & Hs) E. rewrite indexOf_not_found in E.
    apply (E (len p)). exists p, r. split; [exact Hs | reflexivity].
Qed.

(** ** Facts about lower-casing *)

Lemma toLowerCase_nil : toLowerCase [] = [].
Proof. reflexivity. Qed.

Lemma codePointsFrom_pending (h : N) (s : jsstring) :
  codePointsFrom (Some h) s <> [].
Proof.
  destruct s as [|c t]; cbn [codePointsFrom]; [discriminate|].
  destruct (isLowSurrogate c); [discriminate|].
  destruct (isHighSurrogate c); discriminate.
Qed.

Lemma codeUnits_nonempty (p : N) : codeUnits p <> [].
Proof. unfold codeUnits. destruct ((p <? 65536) || (1114111 <? p))%N; discriminate. Qed.

Lemma lowerPoints_nonempty (afterCased : bool) (ps : list N) :
  ps <> [] -> lowerPoints afterCased ps <> [].
Proof.
  destruct ps as [|c rest]; [congruence|]. intros _. cbn [lowerPoints].
  destruct (c =? 931)%N;
    [destruct (afterCased && negb (followedByCased rest))
    |destruct (c =? 304)%N]; discriminate.
Qed.

Lemma toLowerCase_nonempty (s : jsstring) : s <> [] -> toLowerCase s <> [].
Proof.
  intros Hs. unfold toLowerCase.
  assert (Hp : codePoints s <> []).
  { destruct s as [|c t]; [congruence|]. unfold codePoints. cbn [codePointsFrom].
    destruct (isHighSurrogate c); [apply codePointsFrom_pending | discriminate]. }
  pose proof (lowerPoints_nonempty false _ Hp) as Hl.
  destruct (lowerPoints false (codePoints s)) as [|q qs]; [congruence|].
  cbn [flat_map]. intros H. apply app_eq_nil in H.
  exact (codeUnits_nonempty q (proj1 H)).
Qed.

(** *** White space is neither produced nor removed *)

Lemma inRanges_clearOf (ranges : list (N * N)) (a b c : N) :
  clearOf ranges a b = true -> (a <= c <= b)%N -> inRanges c ranges = false.
Proof.
  intros Hclear Hc. induction ranges as [|[x y] rest IH]; [reflexivity|].
  cbn [clearOf forallb fst snd] in Hclear. apply andb_true_iff in Hclear.
  destruct Hclear as [Hxy Hrest]. cbn [inRanges]. rewrite (IH Hrest), orb_false_r.
  apply orb_true_iff in Hxy. rewrite !N.ltb_lt in Hxy.
  apply andb_false_iff. rewrite !N.leb_gt. lia.
Qed.

Ltac compare_units :=
  repeat (match goal with
          | |- context [(?a <=? ?b)%N] => destruct (N.leb_spec a b)
          | |- context [(?a =? ?b)%N] => destruct (N.eqb_spec a b)
          end; try (exfalso; lia)).

Lemma isWhiteSpace_ranges (c : N) : isWhiteSpace c = inRanges c whiteSpaceRanges.
Proof.
  unfold isWhiteSpace, whiteSpaceRanges. cbn [inRanges].
  compare_units; reflexivity.
Qed.

Lemma isWhiteSpace_clear (a b c : N) :
  clearOf whiteSpaceRanges a b = true -> (a <= c <= b)%N -> isWhiteSpace c = false.
Proof. rewrite isWhiteSpace_ranges. apply inRanges_clearOf. Qed.

Lemma lowerIn_whiteSpace (table : list (N * N * N * N)) (c : N) :
  forallb entryClear table = true ->
  isWhiteSpace (lowerIn table c) = isWhiteSpace c.
Proof.
  intros Hall. induction table as [|[[[first last] step] lower] rest IH];
    [reflexivity|].
  cbn [forallb] in Hall. apply andb_true_iff in Hall. destruct Hall as [He Hrest].
  cbn [lowerIn].
  destruct ((first <=? c) && (c <=? last) && ((c - first) mod step =? 0))%N eqn:E;
    [|exact (IH Hrest)].
  apply andb_true_iff in E. destruct E as [E _].
  apply andb_true_iff in E. destruct E as [E1 E2].
  apply N.leb_le in E1, E2. cbn [entryClear] in He.
  apply andb_true_iff in He. destruct He as [Hsrc Hdst].
  rewrite (isWhiteSpace_clear _ _ c Hsrc) by lia.
  apply (isWhiteSpace_clear _ _ _ Hdst). lia.
Qed.

Lemma lowerPoint_whiteSpace (c : N) :
  isWhiteSpace (lowerPoint c) = isWhiteSpace c.
Proof. apply lowerIn_whiteSpace. vm_compute. reflexivity. Qed.

Lemma isWhiteSpace_bmp (c : N) : isWhiteSpace c = true -> (c < 65536)%N.
Proof.
  intros H. destruct (N.lt_ge_cases c 65536) as [Hlt|Hge]; [exact Hlt|].
  rewrite (isWhiteSpace_clear 65536 c c) in H; [discriminate| |lia].
  unfold clearOf, whiteSpaceRanges. cbn [forallb fst snd].
  compare_units. 
  repeat match goal with |- context [(?a <? ?b)%N] => destruct (N.ltb_spec a b); try (exfalso; lia) end.
  reflexivity.
Qed.

Lemma isWhiteSpace_surrogate (c : N) :
  (55296 <= c <= 57343)%N -> isWhiteSpace c = false.
Proof. apply isWhiteSpace_clear. reflexivity. Qed.

Lemma isWhiteSpace_codeUnits (p : N) :
  forallb isWhiteSpace (codeUnits p) = isWhiteSpace p.
Proof.
  unfold codeUnits. destruct ((p <? 65536) || (1114111 <? p))%N eqn:E.
  - cbn. apply andb_true_r.
  - apply orb_false_iff in E. destruct E as [E1 E2].
    apply N.ltb_ge in E1, E2. cbn [forallb].
    rewrite isWhiteSpace_surrogate.
    + destruct (isWhiteSpace p) eqn:Hp; [|reflexivity].
      apply isWhiteSpace_bmp in Hp. lia.
    + assert (H : ((p - 65536) / 1024 < 1024)%N)
        by (apply N.Div0.div_lt_upper_bound; lia).
      revert H. generalize ((p - 65536) / 1024)%N. intros k H. lia.
Qed.

Lemma isWhiteSpace_flat_codeUnits (ps : list N) :
  forallb isWhiteSpace (flat_map codeUnits ps) = forallb isWhiteSpace ps.
Proof.
  induction ps as [|p ps IH]; [reflexivity|].
  cbn [flat_map forallb]. rewrite forallb_app, IH, isWhiteSpace_codeUnits. reflexivity.
Qed.

Lemma isWhiteSpace_lowerPoints (afterCased : bool) (ps : list N) :
  forallb isWhiteSpace (lowerPoints afterCased ps) = forallb isWhiteSpace ps.
Proof.
  revert afterCased. induction ps as [|c rest IH]; intros afterCased; [reflexivity|].
  cbn [lowerPoints forallb]. rewrite forallb_app, IH. f_equal.
  destruct (N.eqb_spec c 931) as [->|H1].
  - destruct (afterCased && negb (followedByCased rest)); reflexivity.
  - destruct (N.eqb_spec c 304) as [->|H2]; [reflexivity|].
    cbn [forallb]. rewrite andb_true_r. apply lowerPoint_whiteSpace.
Qed.

Lemma isWhiteSpace_codePointsFrom (pending : option N) (s : jsstring) :
  (forall h, pending = Some h -> isHighSurrogate h = true) ->
  forallb isWhiteSpace (codePointsFrom pending s) =
  forallb isWhiteSpace (match pending with Some h => h :: s | None => s end).
Proof.
  assert (Hhigh : forall h, isHighSurrogate h = true -> isWhiteSpace h = false).
  { intros h Hh. unfold isHighSurrogate in Hh. apply andb_true_iff in Hh.
    rewrite !N.leb_le in Hh. apply isWhiteSpace_surrogate. lia. }
  revert pending. induction s as [|c t IH]; intros pending Hp.
  - destruct pending; reflexivity.
  - cbn [codePointsFrom]. destruct pending as [h|].
    + pose proof (Hhigh h (Hp h eq_refl)) as Hh. cbn [forallb]. rewrite Hh. cbn [andb].
      destruct (isLowSurrogate c).
      * cbn [forallb].
        destruct (isWhiteSpace (65536 + (h - 55296) * 1024 + (c - 56320))) eqn:E;
          [apply isWhiteSpace_bmp in E; lia | reflexivity].
      * destruct (isHighSurrogate c); cbn [forallb]; rewrite Hh; reflexivity.
    + destruct (isHighSurrogate c) eqn:Hc.
      * rewrite IH by (intros h [= <-]; exact Hc). reflexivity.
      * cbn [forallb]. rewrite IH by discriminate. reflexivity.
Qed.

Lemma isWhiteSpace_toLowerCase (s : jsstring) :
  forallb isWhiteSpace (toLowerCase s) = forallb isWhiteSpace s.
Proof.
  unfold toLowerCase, codePoints.
  rewrite isWhiteSpace_flat_codeUnits, isWhiteSpace_lowerPoints.
  apply (isWhiteSpace_codePointsFrom None). discriminate.
Qed.

(** *** Strings lower-cased code unit by code unit *)

Lemma lowerIn_bmp (table : list (N * N * N * N)) (c : N) :
  forallb entryBmp table = true -> (c < 65536)%N -> (lowerIn table c < 65536)%N.
Proof.
  intros Hall Hc. induction table as [|[[[first last] step] lower] rest IH];
    [exact Hc|].
  cbn [forallb] in Hall. apply andb_true_iff in Hall. destruct Hall as [He Hrest].
  cbn [lowerIn].
  destruct ((first <=? c) && (c <=? last) && ((c - first) mod step =? 0))%N eqn:E;
    [|exact (IH Hrest)].
  apply andb_true_iff in E. destruct E as [E _].
  apply andb_true_iff in E. destruct E as [E1 E2].
  apply N.leb_le in E1, E2. cbn [entryBmp] in He.
  apply orb_true_iff in He. destruct He as [He|He].
  - apply N.leb_le in He. lia.
  - apply andb_true_iff in He. destruct He as [_ He]. apply N.ltb_lt in He. lia.
Qed.

Lemma lowerPoint_bmp (c : N) : (c < 65536)%N -> (lowerPoint c < 65536)%N.
Proof. apply lowerIn_bmp. vm_compute. reflexivity. Qed.

Lemma plainUnit_spec (c : N) :
  plainUnit c = true ->
  (c < 65536)%N /\ isHighSurrogate c = false /\ c <> 304%N /\ c <> 931%N.
Proof.
  unfold plainUnit, isHighSurrogate. intros H.
  repeat (apply andb_true_iff in H; destruct H as [H ?]).
  apply N.ltb_lt in H.
  repeat match goal with
         | H : negb _ = true |- _ => apply negb_true_iff in H
         end.
  rewrite N.eqb_neq in *. repeat split; try assumption.
  apply andb_false_iff. apply andb_false_iff in H2. rewrite !N.leb_gt in *. lia.
Qed.

Lemma plainCase_cons (c : N) (s : jsstring) :
  plainCase (c :: s) <-> plainUnit c = true /\ plainCase s.
Proof. unfold plainCase. cbn [forallb]. apply andb_true_iff. Qed.

Lemma plainCase_app (a b : jsstring) :
  plainCase (a ++ b) <-> plainCase a /\ plainCase b.
Proof. unfold plainCase. rewrite forallb_app. apply andb_true_iff. Qed.

Lemma codePoints_plain (s : jsstring) : plainCase s -> codePoints s = s.
Proof.
  unfold codePoints. induction s as [|c t IH]; intros H; [reflexivity|].
  apply plainCase_cons in H. destruct H as [Hc Ht].
  destruct (plainUnit_spec c Hc) as (_ & Hh & _).
  cbn [codePointsFrom]. rewrite Hh, (IH Ht). reflexivity.
Qed.

Lemma lowerPoints_plain (afterCased : bool) (s : jsstring) :
  plainCase s -> lowerPoints afterCased s = map lowerPoint s.
Proof.
  revert afterCased. induction s as [|c t IH]; intros afterCased H; [reflexivity|].
  apply plainCase_cons in H. destruct H as [Hc Ht].
  destruct (plainUnit_spec c Hc) as (_ & _ & H304 & H931).
  cbn [lowerPoints map]. apply N.eqb_neq in H304, H931. rewrite H304, H931.
  rewrite (IH _ Ht). reflexivity.
Qed.

Lemma codeUnits_lowerPoint_plain (s : jsstring) :
  plainCase s -> flat_map codeUnits (map lowerPoint s) = map lowerPoint s.
Proof.
  induction s as [|c t IH]; intros H; [reflexivity|].
  apply plainCase_cons in H. destruct H as [Hc Ht].
  destruct (plainUnit_spec c Hc) as (Hb & _).
  cbn [map flat_map]. rewrite (IH Ht). unfold codeUnits.
  pose proof (lowerPoint_bmp c Hb) as Hl. apply N.ltb_lt in Hl. rewrite Hl.
  reflexivity.
Qed.

(** On a plain string, [toLowerCase] maps each code unit by itself. *)
Lemma toLowerCase_map (s : jsstring) :
  plainCase s -> toLowerCase s = map lowerPoint s.
Proof.
  intros H. unfold toLowerCase.
  rewrite (codePoints_plain s H), (lowerPoints_plain false s H).
  apply codeUnits_lowerPoint_plain. exact H.
Qed.

Lemma trimStart_blank (s : jsstring) :
  forallb isWhiteSpace s = true -> trimStart s = [].
Proof.
  induction s as [|c s IH]; simpl; [reflexivity|].
  rewrite andb_true_iff. intros [-> H]. exact (IH H).
Qed.

Lemma trim_blank (s : jsstring) :
  forallb isWhiteSpace s = true -> trim s = [].
Proof.
  intros H. unfold trim, trimEnd. rewrite (trimStart_blank s H). reflexivity.
Qed.

Lemma trim_nonempty (s : jsstring) : trim s <> [] -> s <> [].
Proof. intros H ->. apply H. reflexivity. Qed.

(** ** Worked examples *)

Example snippet_fox :
  createSnippet (lit "the quick brown fox jumps over the lazy dog") (lit "fox") 100
  = mkSnippet (lit "the quick brown fox jumps over the lazy dog") 16 19.
Proof. vm_compute. reflexivity. Qed.

Example snippet_upper :
  createSnippet (lit "The Quick BROWN Fox") (lit "brown f") 100
  = mkSnippet (lit "The Quick BROWN Fox") 10 17.
Proof. vm_compute. reflexivity. Qed.

Example snippet_needle :
  let text := repeat 97%N 150 ++ lit "needle" ++ repeat 97%N 44 in
  let r := createSnippet text (lit "needle") defaultMaxLength in
  len text = 200 /\ firstn 3 (snippet r) = ellipsis /\
  matchStart r = 50 /\ matchEnd r = 56 /\ slice (snippet r) 50 56 = lit "needle".
Proof. vm_compute. repeat split; reflexivity. Qed.

Example search_zzz :
  searchMessages
    [userMessage (lit "m1") (lit "a fox"); userMessage (lit "m2") (lit "a dog")]
    (lit "zzz") = [].
Proof. reflexivity. Qed.

Example toLowerCase_cyrillic :
  createSnippet [1055; 1056; 1048; 1042; 1045; 1058; 32; 1084; 1080; 1088]%N
    [1087; 1088; 1080; 1074; 1077; 1090]%N 100
  = mkSnippet [1055; 1056; 1048; 1042; 1045; 1058; 32; 1084; 1080; 1088]%N 0 6.
Proof. vm_compute. reflexivity. Qed.

Example toLowerCase_final_sigma :
  toLowerCase alphaSigmaAlpha = [945; 963; 945]%N /\
  toLowerCase alphaSigma = [945; 962]%N /\
  toLowerCase (alphaSigma ++ lit "." ++ alphaSigma) = [945; 963; 46; 945; 962]%N.
Proof. vm_compute. repeat split; reflexivity. Qed.

Example toLowerCase_surrogate_pair :
  toLowerCase [55297; 56320; 65]%N = [55297; 56360; 97]%N.
Proof. vm_compute. reflexivity. Qed.

(** ** Text extraction *)

(** C7: the text of a tool-call message is the tool's name and description
    joined by one space, where a part that is absent or empty is left out
    together with the separator; a message without a tool has the empty
    text; the tool named "Read" with the empty description has the text
    "Read", and with the description "Reads a file" the text
    "Read Reads a file". *)
Theorem getMessageText_tool_call :
  (forall i t n d,
     getMessageText (mkMessage i t (ToolCallBody (Some (mkToolCall n d)))) =
     match presentPart n, presentPart d with
     | Some name, Some description => name ++ lit " " ++ description
     | Some name, None => name
     | None, Some description => description
     | None, None => []
     end) /\
  (forall i t, getMessageText (mkMessage i t (ToolCallBody None)) = []) /\
  (forall i t,
     getMessageText
       (mkMessage i t (ToolCallBody (Some (mkToolCall (Some (lit "Read")) (Some [])))))
     = lit "Read") /\
  (forall i t,
     getMessageText
       (mkMessage i t
          (ToolCallBody
             (Some (mkToolCall (Some (lit "Read")) (Some (lit "Reads a file"))))))
     = lit "Read Reads a file").
Proof.
  split; [|split; [|split]].
  - intros i t [[|c n]|] [[|e d]|]; reflexivity.
  - intros i t. reflexivity.
  - intros i t. reflexivity.
  - intros i t. reflexivity.
Qed.

(** C8: [getMessageText] is a total function; on an agent-event message it
    is the event's message when the event is of the "message" type and
    empty when the event's type is anything else, and on a message whose
    kind is none of the four recognized kinds it is empty. *)
Theorem getMessageText_event_and_unknown_kind (m : Message) :
  (exists text, getMessageText m = text) /\
  (forall msg, body m = AgentEventBody (EventMessage msg) ->
     getMessageText m = msg) /\
  (forall e, body m = AgentEventBody e ->
     eqs (eventType e) (lit "message") = false -> getMessageText m = []) /\
  (recognizedKind (kind m) = false -> getMessageText m = []).
Proof.
  split; [eexists; reflexivity|]. unfold getMessageText, kind. split; [|split].
  - intros msg ->. reflexivity.
  - intros e -> He. destruct e; try reflexivity. discriminate He.
  - destruct (body m) as [text|text|tool|event|k]; try discriminate.
    reflexivity.
Qed.

Lemma getMessageText_event_and_unknown_kind_witness :
  getMessageText (mkMessage (lit "m1") 0 (AgentEventBody (EventMessage (lit "Compacted")))) = lit "Compacted" /\
  getMessageText (mkMessage (lit "m2") 0 (AgentEventBody (EventSwitch (lit "plan")))) = [] /\
  getMessageText (mkMessage (lit "m3") 0 (AgentEventBody (EventOther (lit "ready")))) = [] /\
  getMessageText (mkMessage (lit "m4") 0 (OtherKind (lit "attachment"))) = [].
Proof.
  split; [|split; [|split]].
  - apply (proj1 (proj2 (getMessageText_event_and_unknown_kind _))). reflexivity.
  - apply (proj1 (proj2 (proj2 (getMessageText_event_and_unknown_kind _))) (EventSwitch (lit "plan")));
      reflexivity.
  - apply (proj1 (proj2 (proj2 (getMessageText_event_and_unknown_kind _))) (EventOther (lit "ready")));
      reflexivity.
  - apply (proj2 (proj2 (proj2 (getMessageText_event_and_unknown_kind _)))). reflexivity.
Defined.

(** ** Search *)

(** C3: a query that is empty or made of white space only has no results,
    whatever the messages are. *)
Theorem searchMessages_blank_query (messages : list Message) (query : jsstring) :
  forallb isWhiteSpace query = true -> searchMessages messages query = [].
Proof.
  intros H. unfold searchMessages. rewrite (trim_blank query H). reflexivity.
Qed.

Lemma searchMessages_blank_query_witness :
  searchMessages [userMessage (lit "m1") (lit "a b")] (lit "  ") = [] /\
  searchMessages [userMessage (lit "m1") (lit "a b")] [] = [].
Proof.
  split; apply searchMessages_blank_query; reflexivity.
Defined.

Lemma matchesQuery_iff (query : jsstring) (m : Message) :
  matchesQuery query m = true <-> containsLowerCased (getMessageText m) query.
Proof. apply includes_substring. Qed.

Lemma searchStep_filter (query : jsstring) (results : list SearchResult) (m : Message) :
  query <> [] ->
  searchStep query (toLowerCase query) results m =
  results ++ map (resultFor query) (filter (matchesQuery query) [m]).
Proof.
  intros Hq. unfold searchStep, matchesQuery.
  cbn [filter]. cbv zeta.
  destruct (getMessageText m) as [|c text] eqn:Et.
  - cbn [truthy negb]. rewrite toLowerCase_nil. unfold includes.
    rewrite (indexOf_empty_text _ (toLowerCase_nonempty _ Hq)).
    cbn. rewrite app_nil_r. reflexivity.
  - cbn [truthy negb].
    destruct (includes (toLowerCase (c :: text)) (toLowerCase query)).
    + cbn [map]. unfold resultFor. rewrite Et. reflexivity.
    + cbn [map]. rewrite app_nil_r. reflexivity.
Qed.

Lemma search_loop_filter (query : jsstring) (messages : list Message)
    (results : list SearchResult) :
  query <> [] ->
  fold_left (searchStep query (toLowerCase query)) messages results =
  results ++ map (resultFor query) (filter (matchesQuery query) messages).
Proof.
  intros Hq. revert results. induction messages as [|m ms IH]; intros results.
  - simpl. rewrite app_nil_r. reflexivity.
  - simpl fold_left. rewrite IH, (searchStep_filter _ _ _ Hq).
    change (m :: ms) with ([m] ++ ms).
    rewrite filter_app, map_app, app_assoc. reflexivity.
Qed.

(** For a query that is not blank, the results are the messages whose
    lower-cased text contains the lower-cased query, in the order of the
    message list, each with the snippet built from its text. *)
Lemma searchMessages_filter (messages : list Message) (query : jsstring) :
  trim query <> [] ->
  exists matches : Message -> bool,
    (forall m, matches m = true <-> containsLowerCased (getMessageText m) query) /\
    searchMessages messages query = map (resultFor query) (filter matches messages).
Proof.
  intros Ht. exists (matchesQuery query). split; [apply matchesQuery_iff|].
  unfold searchMessages. destruct (trim query) eqn:E; [congruence|].
  simpl negb. cbv iota.
  assert (Hq : query <> []) by (apply trim_nonempty; rewrite E; discriminate).
  apply (search_loop_filter query messages [] Hq).
Qed.

Lemma searchMessages_filter_witness :
  exists matches : Message -> bool,
    (forall m, matches m = true <-> containsLowerCased (getMessageText m) (lit "Fox")) /\
    searchMessages
      [userMessage (lit "m1") (lit "a fox"); userMessage (lit "m2") (lit "a dog");
       userMessage (lit "m3") (lit "FOXES")] (lit "Fox")
    = map (resultFor (lit "Fox"))
        (filter matches
           [userMessage (lit "m1") (lit "a fox"); userMessage (lit "m2") (lit "a dog");
            userMessage (lit "m3") (lit "FOXES")]).
Proof.
  apply searchMessages_filter. vm_compute. discriminate.
Defined.

(** C2: the text of three capital letters alpha, sigma, alpha contains the
    query alpha, sigma as it is written, and the query is not blank, yet the
    search returns nothing: the sigma of the query ends a word and is
    lower-cased to the final sigma U+03C2, the sigma of the text is inside a
    word and is lower-cased to U+03C3. *)
Theorem searchMessages_misses_verbatim_query :
  alphaSigmaAlpha = alphaSigma ++ [913%N] /\
  trim alphaSigma <> [] /\
  getMessageText (userMessage (lit "m1") alphaSigmaAlpha) = alphaSigmaAlpha /\
  toLowerCase alphaSigmaAlpha = [945; 963; 945]%N /\
  toLowerCase alphaSigma = [945; 962]%N /\
  searchMessages [userMessage (lit "m1") alphaSigmaAlpha] alphaSigma = [].
Proof.
  split; [reflexivity|]. split; [vm_compute; discriminate|].
  repeat (split; [vm_compute; reflexivity|]). vm_compute. reflexivity.
Qed.

Example searchMessages_fox :
  map (fun r => (id (message r), resultMatchStart r, resultMatchEnd r))
    (searchMessages
       [userMessage (lit "m1") (lit "a fox"); userMessage (lit "m2") (lit "a dog");
        userMessage (lit "m3") (lit "FOXES")] (lit "Fox"))
  = [(lit "m1", 2, 5); (lit "m3", 0, 3)].
Proof. vm_compute. reflexivity. Qed.

(** ** Snippets: the branch without a match and the empty query *)

Lemma slice_prefix (s : jsstring) (n : Z) :
  0 <= n -> slice s 0 n = firstn (Z.to_nat n) s.
Proof.
  intros Hn. unfold slice, sliceIndex. pose proof (len_nonneg s) as Hl.
  destruct (0 <? 0) eqn:E0; [apply Z.ltb_lt in E0; lia|].
  destruct (n <? 0) eqn:E1; [apply Z.ltb_lt in E1; lia|].
  rewrite (Z.min_l 0 (len s)) by lia. cbn [Z.to_nat skipn]. rewrite Z.sub_0_r.
  destruct (Z.le_gt_cases n (len s)) as [H|H].
  - rewrite Z.min_l by lia. reflexivity.
  - rewrite Z.min_r by lia. unfold len in *. rewrite Nat2Z.id.
    rewrite !firstn_all2 by lia. reflexivity.
Qed.


Lemma createSnippet_not_found (text query : jsstring) (maxLength : Z) :
  indexOf (toLowerCase text) (toLowerCase query) = -1 ->
  createSnippet text query maxLength = mkSnippet (slice text 0 maxLength) (-1) (-1).
Proof. intros H. unfold createSnippet. rewrite H. reflexivity. Qed.





Example snippet_negative_maxLength :
  createSnippet (lit "abc") (lit "z") (-1) = mkSnippet (lit "ab") (-1) (-1).
Proof. reflexivity. Qed.

(** C10: the empty query is found at position 0 of every text, so the
    branch without a match is not taken, and both offsets are 0. *)
Theorem createSnippet_empty_query (text : jsstring) (maxLength : Z) :
  indexOf (toLowerCase text) (toLowerCase []) = 0 /\
  matchStart (createSnippet text [] maxLength) = 0 /\
  matchEnd (createSnippet text [] maxLength) = 0.
Proof.
  rewrite toLowerCase_nil. split; [apply indexOf_empty_needle|].
  unfold createSnippet. rewrite toLowerCase_nil.
  rewrite indexOf_empty_needle. cbn [Z.eqb matchStart matchEnd].
  rewrite indexOf_empty_needle. split; reflexivity.
Qed.

(** ** Snippets: offsets that do not mark the match *)

(** C1: on the text "İstanbul is nice" (with U+0130) and the query "nice"
    the offsets are 13 and 17, and that slice of the snippet is "ice", which
    is not the query under case-insensitive comparison: the offsets index
    the lower-cased snippet, which is one code unit longer. *)
Theorem createSnippet_offsets_shifted_by_lowercase :
  createSnippet istanbulText (lit "nice") defaultMaxLength
    = mkSnippet istanbulText 13 17 /\
  slice istanbulText 13 17 = lit "ice" /\
  toLowerCase (lit "ice") <> toLowerCase (lit "nice") /\
  map highlightParts
      (searchMessages [userMessage (lit "m1") istanbulText] (lit "nice"))
    = [[304%N :: lit "stanbul is n"; lit "ice"; []]].
Proof.
  split; [reflexivity|]. split; [reflexivity|]. split; [discriminate|]. reflexivity.
Qed.

(** C9: on the text "İstanbul" (with U+0130) and the query "bul" the
    snippet has 8 code units and the offsets are 6 and 9, so [matchEnd]
    lies beyond the end of the snippet. *)
Theorem createSnippet_matchEnd_beyond_snippet :
  createSnippet istanbulWord (lit "bul") defaultMaxLength
    = mkSnippet istanbulWord 6 9 /\
  len istanbulWord = 8 /\
  map (fun r => (len (resultSnippet r), resultMatchStart r, resultMatchEnd r))
      (searchMessages [userMessage (lit "m1") istanbulWord] (lit "bul"))
    = [(8, 6, 9)] /\
  map highlightParts
      (searchMessages [userMessage (lit "m1") istanbulWord] (lit "bul"))
    = [[304%N :: lit "stanb"; lit "ul"; []]].
Proof.
  split; [reflexivity|]. split; [reflexivity|]. split; reflexivity.
Qed.

(** C5: with a query of 88 characters found at position 12 of the text, the
    start of the snippet is moved to position 14, behind the space inside
    the match; the query is then not found in the snippet, and the offsets
    are [matchStart = -1] and [matchEnd = 87]. *)
Theorem createSnippet_matchEnd_without_matchStart :
  len longQuery = 88 /\
  indexOf (toLowerCase transcriptText) (toLowerCase longQuery) = 12 /\
  adjustStart transcriptText (initialStart longQuery defaultMaxLength 12) = 14 /\
  matchStart (createSnippet transcriptText longQuery defaultMaxLength) = -1 /\
  matchEnd (createSnippet transcriptText longQuery defaultMaxLength) = 87 /\
  map (fun r => (resultMatchStart r, resultMatchEnd r))
      (searchMessages [userMessage (lit "m1") transcriptText] longQuery)
    = [(-1, 87)].
Proof.
  repeat (split; [vm_compute; reflexivity|]). vm_compute. reflexivity.
Qed.

(** ** Snippets: the bounds and the word-boundary adjustment *)

Lemma isPrefix_single (c d : N) (t : jsstring) :
  isPrefix [c] (d :: t) = N.eqb c d.
Proof. simpl. apply andb_true_r. Qed.

(** The backward search for one character, read off the forward scan:
    either no position up to [start] holds the character and the result is
    [best], or the result is the greatest such position. *)
Lemma lastIndexOfFrom_single (c : N) (s : jsstring) (i start best : Z) :
  (lastIndexOfFrom [c] s i start best = best /\
   forall k : nat, i + Z.of_nat k <= start -> nth_error s k <> Some c)
  \/
  (exists k : nat,
     lastIndexOfFrom [c] s i start best = i + Z.of_nat k /\
     i + Z.of_nat k <= start /\ nth_error s k = Some c /\
     forall j : nat, (k < j)%nat -> i + Z.of_nat j <= start -> nth_error s j <> Some c).
Proof.
  revert i best. induction s as [|d t IH]; intros i best.
  - left. cbn [lastIndexOfFrom isPrefix]. rewrite andb_false_r. split; [reflexivity|].
    intros k _. destruct k; discriminate.
  - cbn [lastIndexOfFrom]. rewrite isPrefix_single.
    destruct ((i <=? start) && (c =? d)%N) eqn:E.
    + apply andb_true_iff in E. destruct E as [Hi Hc].
      apply Z.leb_le in Hi. apply N.eqb_eq in Hc. subst d.
      destruct (IH (i + 1) i) as [[Hr Hno]|(k & Hr & Hk & Hc & Hno)].
      * right. exists 0%nat. rewrite Hr. split; [simpl; lia|]. split; [simpl; lia|].
        split; [reflexivity|]. intros j Hj Hjs. destruct j as [|j]; [lia|].
        cbn [nth_error]. apply Hno. lia.
      * right. exists (S k). rewrite Hr. split; [lia|]. split; [lia|].
        split; [exact Hc|]. intros j Hj Hjs. destruct j as [|j]; [lia|].
        cbn [nth_error]. apply Hno; lia.
    + destruct (IH (i + 1) best) as [[Hr Hno]|(k & Hr & Hk & Hc & Hno)].
      * left. split; [exact Hr|]. intros k Hk. destruct k as [|k].
        -- cbn [nth_error]. intros H. injection H as ->.
           rewrite N.eqb_refl, andb_true_r in E. apply Z.leb_gt in E. simpl in Hk. lia.
        -- cbn [nth_error]. apply Hno. lia.
      * right. exists (S k). rewrite Hr. split; [lia|]. split; [lia|].
        split; [exact Hc|]. intros j Hj Hjs. destruct j as [|j]; [lia|].
        cbn [nth_error]. apply Hno; lia.
Qed.

Lemma nth_error_len (text : jsstring) (k : nat) (c : N) :
  nth_error text k = Some c -> Z.of_nat k < len text.
Proof.
  intros H. assert (nth_error text k <> None) by congruence.
  apply nth_error_Some in H0. unfold len. lia.
Qed.

(** [lastIndexOf(' ', p)] is the nearest space at or before [p]. *)
Lemma lastIndexOf_nearestSpace (text : jsstring) (p s : Z) :
  nearestSpace text p s -> lastIndexOf text (lit " ") p = s.
Proof.
  intros ((Hs0 & Hs) & Hsp & Hnear). unfold lastIndexOf.
  change (lit " ") with [space]. change (len [space]) with 1.
  pose proof (nth_error_len _ _ _ Hs) as Hlen. rewrite Z2Nat.id in Hlen by lia.
  set (start := Z.min (Z.max p 0) (len text - 1)).
  assert (Hstart : s <= start <= p) by (unfold start; lia).
  destruct (lastIndexOfFrom_single space text 0 start (-1))
    as [[_ Hno]|(k & Hr & Hk & Hc & Hno)].
  - exfalso. apply (Hno (Z.to_nat s)); [lia | exact Hs].
  - rewrite Hr. cbn [Z.add] in *.
    destruct (Z.lt_trichotomy (Z.of_nat k) s) as [Hlt|[Heq|Hgt]].
    + exfalso. apply (Hno (Z.to_nat s)); [lia | lia | exact Hs].
    + simpl. lia.
    + exfalso. apply (Hnear (Z.of_nat k)); [simpl in Hk; lia|].
      split; [lia|]. rewrite Nat2Z.id. exact Hc.
Qed.

(** Without a space at or before [p] the search gives [-1]. *)
Lemma lastIndexOf_no_space (text : jsstring) (p : Z) :
  0 <= p ->
  (forall k, k <= p -> ~ spaceAt text k) -> lastIndexOf text (lit " ") p = -1.
Proof.
  intros Hp Hno. unfold lastIndexOf.
  change (lit " ") with [space]. change (len [space]) with 1.
  set (start := Z.min (Z.max p 0) (len text - 1)).
  destruct (lastIndexOfFrom_single space text 0 start (-1))
    as [[Hr _]|(k & Hr & Hk & Hc & _)]; [exact Hr|].
  exfalso. pose proof (nth_error_len _ _ _ Hc) as Hlen.
  destruct (Z.le_gt_cases (Z.of_nat k) p) as [Hle|Hgt].
  - apply (Hno (Z.of_nat k) Hle). split; [lia|]. rewrite Nat2Z.id. exact Hc.
  - unfold start in Hk. lia.
Qed.

Lemma createSnippet_found (text query : jsstring) (maxLength : Z) :
  indexOf (toLowerCase text) (toLowerCase query) <> -1 ->
  createSnippet text query maxLength =
  let matchIndex := indexOf (toLowerCase text) (toLowerCase query) in
  let s := excerpt text
             (adjustStart text (initialStart query maxLength matchIndex))
             (snippetEnd text query maxLength matchIndex) in
  let i := indexOf (toLowerCase s) (toLowerCase query) in
  mkSnippet s i (i + len query).
Proof.
  intros H. unfold createSnippet. apply Z.eqb_neq in H. rewrite H. reflexivity.
Qed.

Lemma nearestSpace_lastIndexOf (text : jsstring) (p s : Z) :
  0 <= p -> lastIndexOf text (lit " ") p = s -> s <> -1 -> nearestSpace text p s.
Proof.
  intros Hp Hr Hs. unfold lastIndexOf in Hr.
  change (lit " ") with [space] in Hr. change (len [space]) with 1 in Hr.
  set (start := Z.min (Z.max p 0) (len text - 1)) in Hr.
  destruct (lastIndexOfFrom_single space text 0 start (-1))
    as [[Hb _]|(k & Hk & Hle & Hc & Hno)]; [congruence|].
  rewrite Hk in Hr. subst s. unfold start in Hle.
  split; [split; [lia | rewrite Z.add_0_l, Nat2Z.id; exact Hc]|].
  split; [lia|]. intros j Hj [Hj0 Hsp].
  pose proof (nth_error_len _ _ _ Hsp) as Hlen. rewrite Z2Nat.id in Hlen by lia.
  apply (Hno (Z.to_nat j)); [lia | unfold start; lia | exact Hsp].
Qed.

Lemma adjustStart_nearestSpace (text : jsstring) (start s : Z) :
  0 < start -> nearestSpace text (start + 10) s ->
  adjustStart text start = if start - 10 <? s then s + 1 else start.
Proof.
  intros H0 Hs. unfold adjustStart.
  apply Z.ltb_lt in H0. rewrite H0.
  rewrite (lastIndexOf_nearestSpace _ _ _ Hs). reflexivity.
Qed.

Lemma adjustStart_at_text_start (text : jsstring) (start : Z) :
  start <= 0 -> adjustStart text start = start.
Proof.
  intros H. unfold adjustStart.
  destruct (0 <? start) eqn:E; [apply Z.ltb_lt in E; lia | reflexivity].
Qed.

(** Without a space at or before [start + 10], the value [-1] of the search
    is compared with [start - 10] like a position. *)
Lemma adjustStart_no_space (text : jsstring) (start : Z) :
  0 < start -> (forall k, k <= start + 10 -> ~ spaceAt text k) ->
  adjustStart text start = if start <? 9 then 0 else start.
Proof.
  intros H0 Hno. unfold adjustStart.
  apply Z.ltb_lt in H0. rewrite H0. apply Z.ltb_lt in H0.
  rewrite (lastIndexOf_no_space text (start + 10)) by (lia || exact Hno).
  destruct (start - 10 <? -1) eqn:E1; destruct (start <? 9) eqn:E2;
    try reflexivity;
    rewrite ?Z.ltb_lt, ?Z.ltb_ge in E1, E2; lia.
Qed.

(** C6, as amended: with [matchIndex] the position of the lower-cased query
    in the lower-cased text, [contextSize] the floor of
    [(maxLength - len query) / 2], [start = max 0 (matchIndex - contextSize)]
    and [end = min (len text) (matchIndex + len query + contextSize)]: when
    [start] is 0 the snippet is cut at [start] and [end]; when [start > 0] and
    [s] is the nearest space at or before [start + 10], the snippet is cut
    at [s + 1] if [s > start - 10] (the space may lie behind [start]) and at
    [start] otherwise; [end] is used as computed in both cases. *)
Theorem createSnippet_window (text query : jsstring) (maxLength : Z) :
  let matchIndex := indexOf (toLowerCase text) (toLowerCase query) in
  let contextSize := (maxLength - len query) / 2 in
  let start := Z.max 0 (matchIndex - contextSize) in
  let end_ := Z.min (len text) (matchIndex + len query + contextSize) in
  matchIndex <> -1 ->
  2 * contextSize <= maxLength - len query < 2 * contextSize + 2 /\
  (start <= 0 ->
   snippet (createSnippet text query maxLength) = excerpt text start end_) /\
  (forall s, 0 < start -> nearestSpace text (start + 10) s ->
   snippet (createSnippet text query maxLength) =
   excerpt text (if start - 10 <? s then s + 1 else start) end_).
Proof.
  intros matchIndex cs start end_ Hm.
  split; [unfold cs; pose proof (Z.div_mod (maxLength - len query) 2);
          pose proof (Z.mod_pos_bound (maxLength - len query) 2); lia|].
  rewrite (createSnippet_found text query maxLength Hm). cbv zeta. cbn [snippet].
  fold matchIndex. unfold initialStart, snippetEnd, contextSize.
  fold cs. fold start. fold end_. split.
  - intros H. rewrite adjustStart_at_text_start by exact H. reflexivity.
  - intros s H0 Hs. rewrite (adjustStart_nearestSpace text start s H0 Hs). reflexivity.
Qed.

Lemma createSnippet_window_witness :
  snippet (createSnippet (lit "the quick brown fox") (lit "fox") 100)
    = excerpt (lit "the quick brown fox") 0 19 /\
  snippet (createSnippet (lit "0123456789ab cdefghij") (lit "j") 11)
    = excerpt (lit "0123456789ab cdefghij") 13 21 /\
  snippet (createSnippet barnText (lit "needle") 100) = excerpt barnText 31 90.
Proof.
  split; [|split].
  - apply (proj1 (proj2 (createSnippet_window (lit "the quick brown fox") (lit "fox") 100
                           ltac:(vm_compute; discriminate)))).
    vm_compute. discriminate.
  - apply (proj2 (proj2 (createSnippet_window (lit "0123456789ab cdefghij") (lit "j") 11
                           ltac:(vm_compute; discriminate))) 12).
    + reflexivity.
    + apply nearestSpace_lastIndexOf; [vm_compute; discriminate | reflexivity | discriminate].
  - apply (proj2 (proj2 (createSnippet_window barnText (lit "needle") 100
                           ltac:(vm_compute; discriminate))) 30).
    + reflexivity.
    + apply nearestSpace_lastIndexOf; [vm_compute; discriminate | reflexivity | discriminate].
Defined.

(** C6, as stated, fails when the nearest space lies behind [start]: in
    [barnText] the query is found at 68, [start] is 21 and the nearest space
    at or before 31 is at 30, which is not before [start]; the snippet is
    cut at 31 all the same. *)
Lemma createSnippet_start_moves_to_later_space :
  ~ (forall (text query : jsstring) (maxLength s : Z),
       let matchIndex := indexOf (toLowerCase text) (toLowerCase query) in
       let contextSize := (maxLength - len query) / 2 in
       let start := Z.max 0 (matchIndex - contextSize) in
       let end_ := Z.min (len text) (matchIndex + len query + contextSize) in
       matchIndex <> -1 -> 0 < start -> nearestSpace text (start + 10) s ->
       snippet (createSnippet text query maxLength) =
       excerpt text (if (start - 10 <=? s) && (s <? start) then s + 1 else start) end_).
Proof.
  intros H. specialize (H barnText (lit "needle") 100 30).
  cbv zeta in H.
  assert (Hm : indexOf (toLowerCase barnText) (toLowerCase (lit "needle")) = 68)
    by reflexivity.
  rewrite Hm in H.
  assert (Hs : nearestSpace barnText 31 30)
    by (apply nearestSpace_lastIndexOf; [lia | reflexivity | discriminate]).
  specialize (H ltac:(discriminate) ltac:(reflexivity) Hs).
  vm_compute in H. discriminate H.
Qed.

Example createSnippet_barn :
  snippet (createSnippet barnText (lit "needle") 100)
  = lit "...I remembered that the old barn had a needle in the haystack".
Proof. reflexivity. Qed.

Example createSnippet_start_reset_without_space :
  snippet (createSnippet (lit "abcdefghij") (lit "j") 11) = lit "abcdefghij" /\
  initialStart (lit "j") 11 9 = 4 /\ adjustStart (lit "abcdefghij") 4 = 0.
Proof. split; [|split]; reflexivity. Qed.

(** ** Snippets: texts lower-cased code unit by code unit *)

Lemma toLowerCase_len (s : jsstring) :
  plainCase s -> len (toLowerCase s) = len s.
Proof.
  intros H. rewrite (toLowerCase_map s H). unfold len. rewrite length_map. reflexivity.
Qed.

Lemma plainCase_slice (s : jsstring) (from to : Z) :
  plainCase s -> plainCase (slice s from to).
Proof.
  intros H. unfold slice.
  set (a := Z.to_nat (sliceIndex (len s) from)).
  set (n := Z.to_nat (sliceIndex (len s) to - sliceIndex (len s) from)).
  rewrite <- (firstn_skipn a s) in H. apply plainCase_app in H.
  destruct H as [_ H].
  rewrite <- (firstn_skipn n (skipn a s)) in H. apply plainCase_app in H.
  exact (proj1 H).
Qed.

Lemma plainCase_excerpt (text : jsstring) (start end_ : Z) :
  plainCase text -> plainCase (excerpt text start end_).
Proof.
  intros H. unfold excerpt.
  assert (He : plainCase ellipsis)
    by (reflexivity).
  pose proof (plainCase_slice text start end_ H) as Hs.
  destruct (0 <? start); destruct (end_ <? len text);
    repeat (apply plainCase_app; split); assumption.
Qed.

Lemma skipn_prefix (p l : jsstring) : skipn (List.length p) (p ++ l) = l.
Proof. induction p as [|c p IH]; [reflexivity | exact IH]. Qed.

Lemma firstn_prefix (q l : jsstring) : firstn (List.length q) (q ++ l) = q.
Proof. induction q as [|c q IH]; [reflexivity | simpl; rewrite IH; reflexivity]. Qed.

Lemma slice_middle (p q r : jsstring) :
  slice (p ++ q ++ r) (len p) (len p + len q) = q.
Proof.
  unfold slice, sliceIndex. rewrite !len_app.
  pose proof (len_nonneg p). pose proof (len_nonneg q). pose proof (len_nonneg r).
  destruct (len p <? 0) eqn:E1; [apply Z.ltb_lt in E1; lia|].
  destruct (len p + len q <? 0) eqn:E2; [apply Z.ltb_lt in E2; lia|].
  rewrite !Z.min_l by lia.
  replace (len p + len q - len p) with (len q) by lia.
  unfold len. rewrite !Nat2Z.id, skipn_prefix, firstn_prefix. reflexivity.
Qed.

(** On plain strings, an occurrence of the lower-cased query in the
    lower-cased string marks a slice of the string itself with the
    lower-case form of the query. *)
Lemma occurrence_in_original (s query : jsstring) (k : Z) :
  plainCase s -> plainCase query ->
  occursAt (toLowerCase query) (toLowerCase s) k ->
  0 <= k /\ k + len query <= len s /\
  toLowerCase (slice s k (k + len query)) = toLowerCase query.
Proof.
  intros Hs Hq Hocc.
  pose proof (occursAt_range _ _ _ Hocc) as [Hk Hend].
  rewrite (toLowerCase_len _ Hs), (toLowerCase_len _ Hq) in Hend.
  split; [exact Hk|]. split; [exact Hend|].
  destruct Hocc as (p & r & Heq & Hp).
  rewrite (toLowerCase_map s Hs) in Heq.
  apply map_eq_app in Heq. destruct Heq as (p' & qr & -> & Hp' & Hqr).
  apply map_eq_app in Hqr. destruct Hqr as (q' & r' & -> & Hq' & Hr').
  assert (Hlp : len p' = k).
  { rewrite <- Hp, <- Hp'. unfold len. rewrite length_map. reflexivity. }
  assert (Hlq : len q' = len query).
  { rewrite <- (toLowerCase_len query Hq), <- Hq'. unfold len.
    rewrite length_map. reflexivity. }
  rewrite <- Hlp, <- Hlq, slice_middle.
  apply plainCase_app in Hs. destruct Hs as [_ Hs].
  apply plainCase_app in Hs. destruct Hs as [Hs _].
  rewrite (toLowerCase_map q' Hs). exact Hq'.
Qed.

(** X4: when the text and the query are plain (code units of the Basic
    Multilingual Plane other than surrogates, U+0130 and the capital sigma
    U+03A3), offsets other than [-1] are indices into the snippet and mark
    a slice with the lower-case form of the query. *)
Lemma createSnippet_offsets_valid (text query : jsstring) (maxLength : Z) :
  plainCase text -> plainCase query ->
  let r := createSnippet text query maxLength in
  matchStart r <> -1 ->
  0 <= matchStart r /\ matchEnd r = matchStart r + len query /\
  matchEnd r <= len (snippet r) /\
  toLowerCase (slice (snippet r) (matchStart r) (matchEnd r)) = toLowerCase query.
Proof.
  intros Ht Hq r Hm. subst r.
  destruct (Z.eq_dec (indexOf (toLowerCase text) (toLowerCase query)) (-1)) as [E|E].
  - rewrite (createSnippet_not_found _ _ _ E) in Hm. cbn in Hm. congruence.
  - rewrite (createSnippet_found _ _ _ E) in *. cbv zeta in *.
    cbn [matchStart matchEnd snippet] in *.
    set (s := excerpt text _ _) in *.
    assert (Hs : plainCase s) by (apply plainCase_excerpt; exact Ht).
    destruct (indexOf_found _ _ Hm) as [Hocc _].
    destruct (occurrence_in_original s query _ Hs Hq Hocc) as (H0 & Hend & Heq).
    repeat split; assumption.
Qed.

Lemma createSnippet_offsets_valid_witness :
  let r := createSnippet barnText (lit "Needle") 100 in
  0 <= matchStart r /\ matchEnd r = matchStart r + len (lit "Needle") /\
  matchEnd r <= len (snippet r) /\
  toLowerCase (slice (snippet r) (matchStart r) (matchEnd r))
  = toLowerCase (lit "Needle").
Proof.
  apply (createSnippet_offsets_valid barnText (lit "Needle") 100).
  - reflexivity.
  - reflexivity.
  - vm_compute. discriminate.
Defined.

(** ** More facts about the string library *)

Lemma indexOfFrom_lower_bound (needle s : jsstring) (i : Z) :
  0 <= i -> -1 <= indexOfFrom needle s i.
Proof.
  revert i. induction s as [|c s IH]; intros i Hi; simpl.
  - destruct (isPrefix needle []); lia.
  - destruct (isPrefix needle (c :: s)); [lia|]. apply IH. lia.
Qed.

Lemma indexOf_lower_bound (s needle : jsstring) : -1 <= indexOf s needle.
Proof. apply indexOfFrom_lower_bound. lia. Qed.

Lemma lastIndexOf_space_bounds (text : jsstring) (p : Z) :
  -1 <= lastIndexOf text (lit " ") p <= Z.max p 0.
Proof.
  unfold lastIndexOf. change (lit " ") with [space]. change (len [space]) with 1.
  set (start := Z.min (Z.max p 0) (len text - 1)).
  destruct (lastIndexOfFrom_single space text 0 start (-1))
    as [[Hr _]|(k & Hr & Hk & _)]; rewrite Hr; unfold start in *; lia.
Qed.

Lemma sliceIndex_range (n k : Z) : 0 <= n -> 0 <= sliceIndex n k <= n.
Proof.
  intros Hn. unfold sliceIndex. destruct (k <? 0) eqn:E.
  - apply Z.ltb_lt in E. lia.
  - apply Z.ltb_ge in E. lia.
Qed.

Lemma slice_substring (s : jsstring) (from to : Z) :
  exists pre post, s = pre ++ slice s from to ++ post.
Proof.
  unfold slice.
  set (a := Z.to_nat (sliceIndex (len s) from)).
  set (n := Z.to_nat (sliceIndex (len s) to - sliceIndex (len s) from)).
  exists (firstn a s), (skipn n (skipn a s)).
  rewrite (firstn_skipn n (skipn a s)), (firstn_skipn a s). reflexivity.
Qed.

Lemma len_firstn_le (n : nat) (s : jsstring) : len (firstn n s) <= Z.of_nat n.
Proof. unfold len. pose proof (firstn_le_length n s). lia. Qed.

Lemma len_slice_le (s : jsstring) (from to : Z) :
  0 <= from -> 0 <= to -> len (slice s from to) <= Z.max 0 (to - from).
Proof.
  intros Hf Ht. unfold slice, sliceIndex. pose proof (len_nonneg s) as Hl.
  destruct (from <? 0) eqn:E1; [apply Z.ltb_lt in E1; lia|].
  destruct (to <? 0) eqn:E2; [apply Z.ltb_lt in E2; lia|].
  etransitivity; [apply len_firstn_le|]. lia.
Qed.

Lemma slice_whole (s : jsstring) : slice s 0 (len s) = s.
Proof.
  rewrite slice_prefix by apply len_nonneg. unfold len. rewrite Nat2Z.id.
  apply firstn_all.
Qed.

Lemma firstn_three_parts (s : jsstring) (a b : nat) :
  (a <= b)%nat -> firstn a s ++ firstn (b - a) (skipn a s) ++ skipn b s = s.
Proof.
  intros Hab. transitivity (firstn a s ++ skipn a s); [|apply firstn_skipn].
  f_equal. replace (skipn b s) with (skipn (b - a) (skipn a s)).
  - apply firstn_skipn.
  - rewrite skipn_skipn. f_equal. lia.
Qed.

(** Cutting a string at two positions in order loses nothing. *)
Lemma slice_three_parts (s : jsstring) (a b : Z) :
  0 <= a <= b -> slice s 0 a ++ slice s a b ++ sliceFrom s b = s.
Proof.
  intros Hab. unfold sliceFrom, slice, sliceIndex. pose proof (len_nonneg s) as Hl.
  destruct (0 <? 0) eqn:E0; [apply Z.ltb_lt in E0; lia|].
  destruct (a <? 0) eqn:E1; [apply Z.ltb_lt in E1; lia|].
  destruct (b <? 0) eqn:E2; [apply Z.ltb_lt in E2; lia|].
  destruct (len s <? 0) eqn:E3; [apply Z.ltb_lt in E3; lia|].
  rewrite (Z.min_l 0 (len s)), (Z.min_id (len s)) by lia.
  cbn [Z.to_nat skipn]. rewrite Z.sub_0_r.
  set (a' := Z.min a (len s)). set (b' := Z.min b (len s)).
  assert (Ha : 0 <= a' <= b') by (unfold a', b'; lia).
  assert (Hb : b' <= len s) by (unfold b'; lia).
  rewrite (firstn_all2 (n := Z.to_nat (len s - b'))).
  2:{ rewrite length_skipn. unfold len in *. lia. }
  replace (Z.to_nat (b' - a')) with (Z.to_nat b' - Z.to_nat a')%nat by lia.
  apply firstn_three_parts. lia.
Qed.

(** ** Snippets: what every snippet is made of *)

Lemma adjustStart_bounds (text : jsstring) (start : Z) :
  0 <= start ->
  0 <= adjustStart text start /\
  start - 8 <= adjustStart text start <= Z.max start (start + 11).
Proof.
  intros H0. unfold adjustStart.
  pose proof (lastIndexOf_space_bounds text (start + 10)) as Hs.
  destruct (0 <? start) eqn:E; [|lia].
  destruct (start - 10 <? lastIndexOf text (lit " ") (start + 10)) eqn:E1.
  - apply Z.ltb_lt in E1. lia.
  - lia.
Qed.

Lemma initialStart_nonneg (query : jsstring) (maxLength matchIndex : Z) :
  0 <= initialStart query maxLength matchIndex.
Proof. unfold initialStart. lia. Qed.

Lemma contextSize_floor (query : jsstring) (maxLength : Z) :
  2 * contextSize query maxLength <= maxLength - len query
  < 2 * contextSize query maxLength + 2.
Proof.
  unfold contextSize.
  pose proof (Z.div_mod (maxLength - len query) 2).
  pose proof (Z.mod_pos_bound (maxLength - len query) 2). lia.
Qed.

Lemma excerpt_parts (text : jsstring) (start end_ : Z) :
  exists lead trail,
    excerpt text start end_ = lead ++ slice text start end_ ++ trail /\
    (lead = [] \/ lead = ellipsis) /\ (trail = [] \/ trail = ellipsis).
Proof.
  unfold excerpt. destruct (0 <? start); destruct (end_ <? len text).
  - exists ellipsis, ellipsis. rewrite <- app_assoc. auto.
  - exists ellipsis, []. rewrite app_nil_r. auto.
  - exists [], ellipsis. auto.
  - exists [], []. rewrite app_nil_r. auto.
Qed.

(** X1: the snippet is a contiguous piece of the text, with the ellipsis or
    nothing before it and the ellipsis or nothing after it: no character of
    a snippet comes from anywhere else. *)
Theorem createSnippet_piece_of_text (text query : jsstring) (maxLength : Z) :
  exists pre mid post lead trail,
    text = pre ++ mid ++ post /\
    snippet (createSnippet text query maxLength) = lead ++ mid ++ trail /\
    (lead = [] \/ lead = ellipsis) /\ (trail = [] \/ trail = ellipsis).
Proof.
  destruct (Z.eq_dec (indexOf (toLowerCase text) (toLowerCase query)) (-1)) as [E|E].
  - rewrite (createSnippet_not_found _ _ _ E). cbn [snippet].
    destruct (slice_substring text 0 maxLength) as (pre & post & H).
    exists pre, (slice text 0 maxLength), post, [], [].
    rewrite app_nil_r. auto.
  - rewrite (createSnippet_found _ _ _ E). cbv zeta. cbn [snippet].
    set (a := adjustStart text _). set (b := snippetEnd text query maxLength _).
    destruct (slice_substring text a b) as (pre & post & H).
    destruct (excerpt_parts text a b) as (lead & trail & Hx & Hl & Ht).
    exists pre, (slice text a b), post, lead, trail. auto.
Qed.

Lemma len_excerpt_le (text : jsstring) (start end_ : Z) :
  len (excerpt text start end_) <= len (slice text start end_) + 6.
Proof.
  destruct (excerpt_parts text start end_) as (lead & trail & -> & Hl & Ht).
  rewrite !len_app. destruct Hl as [-> | ->]; destruct Ht as [-> | ->];
    change (len ellipsis) with 3; change (len []) with 0; lia.
Qed.

(** X2: the length of a snippet is bounded: for [maxLength >= 0] a snippet has
    at most [maxLength + 14] code units (the excerpt may start up to 8
    characters earlier than computed, and each ellipsis adds 3). *)
Theorem createSnippet_length_bound (text query : jsstring) (maxLength : Z) :
  0 <= maxLength ->
  len (snippet (createSnippet text query maxLength)) <= maxLength + 14.
Proof.
  intros HM.
  destruct (Z.eq_dec (indexOf (toLowerCase text) (toLowerCase query)) (-1)) as [E|E].
  - rewrite (createSnippet_not_found _ _ _ E). cbn [snippet].
    rewrite slice_prefix by exact HM.
    pose proof (len_firstn_le (Z.to_nat maxLength) text). lia.
  - rewrite (createSnippet_found _ _ _ E). cbv zeta. cbn [snippet].
    set (m := indexOf (toLowerCase text) (toLowerCase query)) in *.
    pose proof (indexOf_lower_bound (toLowerCase text) (toLowerCase query)) as Hm.
    fold m in Hm.
    pose proof (initialStart_nonneg query maxLength m) as Hs0.
    destruct (adjustStart_bounds text (initialStart query maxLength m) Hs0)
      as (Ha0 & Ha & _).
    pose proof (contextSize_floor query maxLength) as Hc.
    pose proof (len_nonneg query) as Hq. pose proof (len_nonneg text) as Ht.
    set (a := adjustStart text (initialStart query maxLength m)) in *.
    set (b := snippetEnd text query maxLength m).
    assert (Hb : 0 <= b) by (unfold b, snippetEnd; lia).
    pose proof (len_excerpt_le text a b) as Hx.
    pose proof (len_slice_le text a b Ha0 Hb) as Hsl.
    clearbody a. unfold initialStart in Ha. subst b. unfold snippetEnd in *. lia.
Qed.

Lemma createSnippet_length_bound_witness :
  len (snippet (createSnippet barnText (lit "needle") 100)) <= 100 + 14.
Proof.
  apply createSnippet_length_bound. lia.
Defined.

(** X3: when the match lies within [contextSize] of both ends of the text, the
    snippet is the whole text without ellipses, and the offsets are those
    of the first occurrence in the text. *)
Theorem createSnippet_whole_text (text query : jsstring) (maxLength : Z) :
  let matchIndex := indexOf (toLowerCase text) (toLowerCase query) in
  matchIndex <> -1 ->
  matchIndex <= contextSize query maxLength ->
  len text <= matchIndex + len query + contextSize query maxLength ->
  createSnippet text query maxLength =
  mkSnippet text matchIndex (matchIndex + len query).
Proof.
  intros m Hm Hc He. rewrite (createSnippet_found _ _ _ Hm). cbv zeta. fold m.
  assert (Hs : initialStart query maxLength m = 0) by (unfold initialStart; lia).
  assert (Hb : snippetEnd text query maxLength m = len text)
    by (unfold snippetEnd; lia).
  rewrite Hs, Hb, (adjustStart_at_text_start text 0) by lia.
  assert (Hx : excerpt text 0 (len text) = text).
  { unfold excerpt. rewrite slice_whole, Z.ltb_irrefl. reflexivity. }
  rewrite Hx. fold m. reflexivity.
Qed.

Lemma createSnippet_whole_text_witness :
  createSnippet (lit "The Quick BROWN Fox") (lit "brown f") 100
  = mkSnippet (lit "The Quick BROWN Fox") 10 (10 + 7).
Proof.
  apply (createSnippet_whole_text (lit "The Quick BROWN Fox") (lit "brown f") 100);
    vm_compute; discriminate.
Defined.

(** ** Snippets: when the match is kept and highlighted *)

Lemma firstn_skipn_around (p q r : jsstring) (a b : nat) :
  (a <= List.length p)%nat -> (List.length p + List.length q <= b)%nat ->
  firstn (b - a) (skipn a (p ++ q ++ r)) =
  skipn a p ++ q ++ firstn (b - List.length p - List.length q) r.
Proof.
  intros Ha Hb. rewrite skipn_app.
  replace (a - List.length p)%nat with 0%nat by lia. cbn [skipn].
  rewrite firstn_app, length_skipn.
  rewrite (firstn_all2 (n := (b - a)%nat)) by (rewrite length_skipn; lia).
  f_equal. replace (b - a - (List.length p - a))%nat with (b - List.length p)%nat by lia.
  rewrite firstn_app. rewrite (firstn_all2 (n := (b - List.length p)%nat)) by lia. reflexivity.
Qed.

(** A slice that starts at or before an occurrence and ends at or behind
    it contains the occurrence. *)
Lemma slice_around (p q r : jsstring) (a b : Z) :
  0 <= a <= len p -> len p + len q <= b ->
  exists x y, slice (p ++ q ++ r) a b = x ++ q ++ y.
Proof.
  intros Ha Hb. unfold slice, sliceIndex. rewrite !len_app.
  pose proof (len_nonneg p). pose proof (len_nonneg q). pose proof (len_nonneg r).
  destruct (a <? 0) eqn:E1; [apply Z.ltb_lt in E1; lia|].
  destruct (b <? 0) eqn:E2; [apply Z.ltb_lt in E2; lia|].
  rewrite (Z.min_l a) by lia.
  set (b' := Z.min b (len p + (len q + len r))).
  replace (Z.to_nat (b' - a)) with (Z.to_nat b' - Z.to_nat a)%nat by lia.
  rewrite firstn_skipn_around.
  - eauto.
  - unfold len in *. lia.
  - unfold b', len in *. lia.
Qed.

Lemma occursAt_includes (needle s : jsstring) (k : Z) :
  occursAt needle s k -> indexOf s needle <> -1.
Proof.
  intros Hocc E. rewrite indexOf_not_found in E. exact (E k Hocc).
Qed.

(** With at least 22 characters of room around the query, the adjusted
    start is not behind the match and the end is not before its end. *)
Lemma window_covers_match (text query : jsstring) (maxLength m : Z) :
  0 <= m -> m + len query <= len text -> 22 <= maxLength - len query ->
  0 <= adjustStart text (initialStart query maxLength m) <= m /\
  m + len query <= snippetEnd text query maxLength m.
Proof.
  intros Hm Hfit Hroom. pose proof (contextSize_floor query maxLength) as Hc.
  split.
  - pose proof (initialStart_nonneg query maxLength m) as Hs0.
    destruct (adjustStart_bounds text _ Hs0) as (Ha0 & _ & Hup).
    split; [exact Ha0|].
    destruct (Z.eq_dec (initialStart query maxLength m) 0) as [E|E].
    + rewrite E, adjustStart_at_text_start; lia.
    + unfold initialStart in *. lia.
  - unfold snippetEnd. lia.
Qed.

Lemma found_in_snippet (text query : jsstring) (maxLength : Z) :
  plainCase text -> plainCase query ->
  indexOf (toLowerCase text) (toLowerCase query) <> -1 ->
  22 <= maxLength - len query ->
  matchStart (createSnippet text query maxLength) <> -1.
Proof.
  intros Ht Hq Hm Hroom.
  rewrite (createSnippet_found _ _ _ Hm). cbv zeta. cbn [matchStart].
  set (m := indexOf (toLowerCase text) (toLowerCase query)) in *.
  destruct (indexOf_found _ _ Hm) as [Hocc _]. fold m in Hocc.
  pose proof (occursAt_range _ _ _ Hocc) as [Hm0 Hend].
  rewrite (toLowerCase_len _ Ht), (toLowerCase_len _ Hq) in Hend.
  destruct (window_covers_match text query maxLength m Hm0 Hend Hroom) as [Ha Hb].
  set (a := adjustStart text _) in *. set (b := snippetEnd text query maxLength m) in *.
  destruct Hocc as (p & r & Heq & Hp).
  rewrite (toLowerCase_map text Ht) in Heq.
  apply map_eq_app in Heq. destruct Heq as (p' & qr & Htext & Hp' & Hqr).
  apply map_eq_app in Hqr. destruct Hqr as (q' & r' & -> & Hq' & Hr').
  assert (Hlp : len p' = m).
  { rewrite <- Hp, <- Hp'. unfold len. rewrite length_map. reflexivity. }
  assert (Hlq : len q' = len query).
  { rewrite <- (toLowerCase_len query Hq), <- Hq'. unfold len.
    rewrite length_map. reflexivity. }
  destruct (excerpt_parts text a b) as (lead & trail & Hx & _).
  destruct (slice_around p' q' r' a b ltac:(lia) ltac:(lia)) as (x & y & Hsl).
  rewrite <- Htext in Hsl. rewrite Hsl in Hx.
  assert (Hs : plainCase (excerpt text a b))
    by (apply plainCase_excerpt; exact Ht).
  apply (occursAt_includes _ _ (len (map lowerPoint (lead ++ x)))).
  exists (map lowerPoint (lead ++ x)), (map lowerPoint (y ++ trail)).
  split; [|reflexivity].
  rewrite (toLowerCase_map _ Hs), Hx, <- Hq'.
  rewrite !map_app, <- !app_assoc. reflexivity.
Qed.

(** X5: on a plain text and a plain query, with [maxLength] at least 22
    more than the length of the query, a query found in the text is also
    found in the snippet: [matchStart] is a position in the snippet, and
    the slice from [matchStart] to [matchEnd] has the lower-case form of the
    query. *)
Theorem createSnippet_match_highlighted (text query : jsstring) (maxLength : Z) :
  plainCase text -> plainCase query ->
  indexOf (toLowerCase text) (toLowerCase query) <> -1 ->
  22 <= maxLength - len query ->
  let r := createSnippet text query maxLength in
  0 <= matchStart r /\ matchEnd r <= len (snippet r) /\
  toLowerCase (slice (snippet r) (matchStart r) (matchEnd r)) = toLowerCase query.
Proof.
  intros Ht Hq Hm Hroom r.
  pose proof (found_in_snippet text query maxLength Ht Hq Hm Hroom) as Hfound.
  fold r in Hfound. subst r.
  rewrite (createSnippet_found _ _ _ Hm) in *. cbv zeta in *.
  cbn [matchStart matchEnd snippet] in *.
  set (s := excerpt text _ _) in *.
  assert (Hs : plainCase s) by (apply plainCase_excerpt; exact Ht).
  destruct (indexOf_found _ _ Hfound) as [Hocc _].
  destruct (occurrence_in_original s query _ Hs Hq Hocc) as (H0 & Hend & Heq).
  repeat split; assumption.
Qed.

Lemma createSnippet_match_highlighted_witness :
  let r := createSnippet barnText (lit "NEEDLE") 100 in
  0 <= matchStart r /\ matchEnd r <= len (snippet r) /\
  toLowerCase (slice (snippet r) (matchStart r) (matchEnd r))
  = toLowerCase (lit "NEEDLE").
Proof.
  apply createSnippet_match_highlighted.
  - reflexivity.
  - reflexivity.
  - vm_compute. discriminate.
  - vm_compute. discriminate.
Defined.

(** ** Search: the result list *)

Lemma searchMessages_nonblank (messages : list Message) (query : jsstring) :
  trim query <> [] ->
  searchMessages messages query =
  map (resultFor query) (filter (matchesQuery query) messages).
Proof.
  intros Ht. unfold searchMessages. destruct (trim query) eqn:E; [congruence|].
  cbn [truthy negb].
  assert (Hq : query <> []) by (apply trim_nonempty; rewrite E; discriminate).
  apply (search_loop_filter query messages [] Hq).
Qed.

Lemma searchMessages_blank (messages : list Message) (query : jsstring) :
  trim query = [] -> searchMessages messages query = [].
Proof. intros Ht. unfold searchMessages. rewrite Ht. reflexivity. Qed.

Lemma in_searchMessages (messages : list Message) (query : jsstring)
    (r : SearchResult) :
  In r (searchMessages messages query) ->
  trim query <> [] /\
  exists m, In m messages /\ matchesQuery query m = true /\ r = resultFor query m.
Proof.
  intros Hin. destruct (trim query) eqn:E.
  - rewrite (searchMessages_blank _ _ E) in Hin. destruct Hin.
  - assert (Ht : trim query <> []) by (rewrite E; discriminate).
    rewrite <- E. split; [exact Ht|].
    rewrite (searchMessages_nonblank _ _ Ht) in Hin.
    apply in_map_iff in Hin. destruct Hin as (m & <- & Hm).
    apply filter_In in Hm. destruct Hm as [Hm Hf]. eauto.
Qed.

(** X6: searching a list made of two parts gives the results of the first part
    followed by the results of the second. *)
Theorem searchMessages_app (older newer : list Message) (query : jsstring) :
  searchMessages (older ++ newer) query =
  searchMessages older query ++ searchMessages newer query.
Proof.
  destruct (trim query) eqn:E.
  - rewrite !(searchMessages_blank _ _ E). reflexivity.
  - assert (Ht : trim query <> []) by (rewrite E; discriminate).
    rewrite !(searchMessages_nonblank _ _ Ht), filter_app, map_app. reflexivity.
Qed.

(** A message that matches a query that is not blank has a text. *)
Lemma matching_message_has_text (query : jsstring) (m : Message) :
  trim query <> [] -> matchesQuery query m = true -> getMessageText m <> [].
Proof.
  intros Ht Hf Htext. unfold matchesQuery in Hf. rewrite Htext in Hf.
  rewrite toLowerCase_nil in Hf. unfold includes in Hf.
  rewrite indexOf_empty_text in Hf; [discriminate|].
  apply toLowerCase_nonempty, trim_nonempty, Ht.
Qed.

(** X7: every result belongs to a message of the list, and that message has a
    text that is not empty: tool calls without name and description, events
    other than messages and messages of unknown kinds are never found. *)
Theorem searchMessages_results_have_text (messages : list Message)
    (query : jsstring) (r : SearchResult) :
  In r (searchMessages messages query) ->
  In (message r) messages /\ getMessageText (message r) <> [].
Proof.
  intros Hin. destruct (in_searchMessages _ _ _ Hin) as (Ht & m & Hm & Hf & ->).
  cbn [resultFor message]. split; [exact Hm|].
  exact (matching_message_has_text query m Ht Hf).
Qed.

Lemma searchMessages_results_have_text_witness :
  let ms := [userMessage (lit "m1") (lit "a fox");
             mkMessage (lit "m2") 0 (OtherKind (lit "attachment"))] in
  let r := resultFor (lit "fox") (userMessage (lit "m1") (lit "a fox")) in
  In (message r) ms /\ getMessageText (message r) <> [].
Proof.
  apply (searchMessages_results_have_text _ (lit "fox")). vm_compute. left. reflexivity.
Defined.

Lemma map_message_resultFor (query : jsstring) (ms : list Message) :
  map message (map (resultFor query) ms) = ms.
Proof.
  induction ms as [|m ms IH]; [reflexivity|]. cbn [map]. rewrite IH. reflexivity.
Qed.

Lemma searchMessages_messages (messages : list Message) (query : jsstring) :
  trim query <> [] ->
  map message (searchMessages messages query) = filter (matchesQuery query) messages.
Proof.
  intros Ht. rewrite (searchMessages_nonblank _ _ Ht). apply map_message_resultFor.
Qed.

(** Dropping messages keeps the ids distinct. *)
Lemma ids_distinct_filter (keep : Message -> bool) (ms : list Message) :
  NoDup (map id ms) -> NoDup (map id (filter keep ms)).
Proof.
  intros Hnd. induction ms as [|m ms IH]; [constructor|].
  cbn [map] in Hnd. apply NoDup_cons_iff in Hnd. destruct Hnd as [Hnew Hnd].
  cbn [filter]. destruct (keep m); [|exact (IH Hnd)].
  cbn [map]. apply NoDup_cons; [|exact (IH Hnd)].
  intros Hin. apply Hnew. apply in_map_iff in Hin.
  destruct Hin as (z & Hz & Hzin). apply filter_In in Hzin.
  apply in_map_iff. exists z. tauto.
Qed.

(** X8: when the messages have distinct ids, the keys of the result list are
    distinct as well. *)
Theorem searchMessages_keys_distinct (messages : list Message) (query : jsstring) :
  NoDup (map id messages) ->
  NoDup (map resultKey (searchMessages messages query)).
Proof.
  intros Hnd. destruct (trim query) eqn:E.
  - rewrite (searchMessages_blank _ _ E). constructor.
  - assert (Ht : trim query <> []) by (rewrite E; discriminate).
    unfold resultKey.
    rewrite <- (map_map message id), (searchMessages_messages _ _ Ht).
    apply ids_distinct_filter. exact Hnd.
Qed.

Lemma searchMessages_keys_distinct_witness :
  NoDup (map resultKey
           (searchMessages
              [userMessage (lit "m1") (lit "a fox"); userMessage (lit "m2") (lit "a dog");
               userMessage (lit "m3") (lit "FOXES")] (lit "Fox"))).
Proof.
  apply searchMessages_keys_distinct.
  repeat constructor; cbn; intuition discriminate.
Defined.

Lemma highlightParts_resultFor (query : jsstring) (m : Message) :
  List.concat (highlightParts (resultFor query m)) = snippet (createSnippet (getMessageText m) query defaultMaxLength).
Proof.
  unfold highlightParts, resultFor. cbv zeta.
  cbn [resultMatchStart resultMatchEnd resultSnippet].
  set (text := getMessageText m).
  destruct (Z.eq_dec (indexOf (toLowerCase text) (toLowerCase query)) (-1)) as [E|E].
  - rewrite (createSnippet_not_found _ _ _ E). cbn. apply app_nil_r.
  - rewrite (createSnippet_found _ _ _ E). cbv zeta.
    cbn [matchStart matchEnd snippet].
    set (s := excerpt text _ _). set (i := indexOf (toLowerCase s) (toLowerCase query)).
    destruct (0 <=? i) eqn:Hi.
    + apply Z.leb_le in Hi. cbn [List.concat]. rewrite app_nil_r.
      apply slice_three_parts. pose proof (len_nonneg query). lia.
    + cbn. apply app_nil_r.
Qed.

(** X9: the parts in which a result is displayed, put together, are its
    snippet: highlighting neither drops nor repeats a character, also when
    the offsets do not mark the match. *)
Theorem highlightParts_recompose (messages : list Message) (query : jsstring)
    (r : SearchResult) :
  In r (searchMessages messages query) ->
  List.concat (highlightParts r) = resultSnippet r.
Proof.
  intros Hin. destruct (in_searchMessages _ _ _ Hin) as (_ & m & _ & _ & ->).
  rewrite highlightParts_resultFor. reflexivity.
Qed.

Lemma highlightParts_recompose_witness :
  List.concat (highlightParts (resultFor (lit "nice") (userMessage (lit "m1") istanbulText)))
  = resultSnippet (resultFor (lit "nice") (userMessage (lit "m1") istanbulText)).
Proof.
  apply (highlightParts_recompose [userMessage (lit "m1") istanbulText] (lit "nice")).
  vm_compute. left. reflexivity.
Defined.

(** ** Search: the case of the query, the panel and the highlighted match *)

Lemma trimStart_head (s : jsstring) :
  trimStart s = [] \/ exists c t, trimStart s = c :: t /\ isWhiteSpace c = false.
Proof.
  induction s as [|c s IH]; [left; reflexivity|]. cbn [trimStart].
  destruct (isWhiteSpace c) eqn:E; [exact IH|]. right. eauto.
Qed.

Lemma trimStart_nil_blank (s : jsstring) :
  trimStart s = [] -> forallb isWhiteSpace s = true.
Proof.
  induction s as [|c s IH]; simpl; [reflexivity|].
  destruct (isWhiteSpace c); [exact IH | discriminate].
Qed.

Lemma blank_rev (s : jsstring) :
  forallb isWhiteSpace (rev s) = true -> forallb isWhiteSpace s = true.
Proof.
  rewrite !forallb_forall. intros H c Hc. apply H. apply in_rev in Hc. exact Hc.
Qed.

(** [trim] gives the empty string exactly on strings of white space. *)
Lemma trim_nil_iff (s : jsstring) :
  trim s = [] <-> forallb isWhiteSpace s = true.
Proof.
  split; [|apply trim_blank]. unfold trim, trimEnd. intros H.
  assert (H1 : trimStart (rev (trimStart s)) = []).
  { destruct (trimStart (rev (trimStart s))); [reflexivity|].
    apply (f_equal (@List.length N)) in H. rewrite length_rev in H. discriminate H. }
  apply trimStart_nil_blank, blank_rev in H1.
  destruct (trimStart_head s) as [E|(c & t & E & Hc)].
  - apply trimStart_nil_blank. exact E.
  - rewrite E in H1. cbn in H1. rewrite Hc in H1. discriminate.
Qed.

Lemma trim_nil_toLowerCase (q1 q2 : jsstring) :
  toLowerCase q1 = toLowerCase q2 -> trim q1 = [] -> trim q2 = [].
Proof.
  intros Hl H. apply trim_nil_iff. apply trim_nil_iff in H.
  rewrite <- isWhiteSpace_toLowerCase, <- Hl, isWhiteSpace_toLowerCase. exact H.
Qed.

(** X10: two queries with the same lower-case form find the same messages, in
    the same order. *)
Theorem searchMessages_query_case (messages : list Message) (q1 q2 : jsstring) :
  toLowerCase q1 = toLowerCase q2 ->
  map message (searchMessages messages q1) = map message (searchMessages messages q2).
Proof.
  intros Hl. destruct (trim q1) eqn:E1.
  - rewrite (searchMessages_blank _ _ E1).
    rewrite (searchMessages_blank _ q2 (trim_nil_toLowerCase _ _ Hl E1)). reflexivity.
  - assert (H1 : trim q1 <> []) by (rewrite E1; discriminate).
    assert (H2 : trim q2 <> []).
    { intros H. apply H1. exact (trim_nil_toLowerCase _ _ (eq_sym Hl) H). }
    rewrite (searchMessages_messages _ _ H1), (searchMessages_messages _ _ H2).
    apply filter_ext. intros m. unfold matchesQuery. rewrite Hl. reflexivity.
Qed.

Lemma searchMessages_query_case_witness :
  map message (searchMessages [userMessage (lit "m1") (lit "a fox")] (lit "FOX"))
  = map message (searchMessages [userMessage (lit "m1") (lit "a fox")] (lit "fox")).
Proof.
  apply searchMessages_query_case. reflexivity.
Defined.

(** X11: what the modal shows: the hint exactly for the empty query; the "no
    results" state when the query is not empty and the search has no
    result, as for every query of white space only; the results only for a
    query that is not blank, with their number, which is not 0, as the
    count. *)
Theorem resultsPanel_cases (messages : list Message) (query : jsstring) :
  match resultsPanel messages query with
  | PanelHint => query = []
  | PanelNoResults => query <> [] /\ searchMessages messages query = []
  | PanelResults count items =>
      trim query <> [] /\ items = searchMessages messages query /\
      count = Z.of_nat (List.length items) /\ 0 < count
  end /\
  (query <> [] -> forallb isWhiteSpace query = true ->
   resultsPanel messages query = PanelNoResults).
Proof.
  unfold resultsPanel. cbv zeta. split.
  - destruct (0 <? len query) eqn:El.
    + apply Z.ltb_lt in El.
      assert (Hq : query <> []) by (intros ->; cbn in El; lia).
      destruct (0 <? Z.of_nat (List.length (searchMessages messages query))) eqn:En.
      * apply Z.ltb_lt in En. destruct (trim query) eqn:E.
        -- rewrite (searchMessages_blank _ _ E) in En. cbn in En. lia.
        -- rewrite <- E. split; [rewrite E; discriminate|].
           split; [reflexivity|]. split; [reflexivity | exact En].
      * apply Z.ltb_ge in En. split; [exact Hq|].
        destruct (searchMessages messages query); [reflexivity | cbn in En; lia].
    + apply Z.ltb_ge in El. destruct query; [reflexivity|].
      rewrite len_cons in El. pose proof (len_nonneg query). lia.
  - intros Hq Hw.
    assert (El : (0 <? len query) = true).
    { apply Z.ltb_lt. destruct query; [congruence|].
      rewrite len_cons. pose proof (len_nonneg query). lia. }
    rewrite El, (searchMessages_blank _ _ (trim_blank _ Hw)). reflexivity.
Qed.

Lemma resultsPanel_cases_witness :
  resultsPanel [userMessage (lit "m1") (lit "a b")] (lit "  ") = PanelNoResults.
Proof.
  apply (proj2 (resultsPanel_cases [userMessage (lit "m1") (lit "a b")] (lit "  ")));
    [discriminate | reflexivity].
Defined.

(** X12: for a plain query of at most 78 code units, every result whose
    message text is plain is displayed in three parts whose middle,
    highlighted part has the lower-case form of the query. *)
Theorem searchMessages_highlights_query (messages : list Message)
    (query : jsstring) (r : SearchResult) :
  plainCase query -> len query <= 78 ->
  In r (searchMessages messages query) ->
  plainCase (getMessageText (message r)) ->
  exists before mid after,
    highlightParts r = [before; mid; after] /\
    toLowerCase mid = toLowerCase query /\
    before ++ mid ++ after = resultSnippet r.
Proof.
  intros Hq Hlen Hin Ht.
  destruct (in_searchMessages _ _ _ Hin) as (_ & m & _ & Hf & ->).
  cbn [resultFor message] in Ht.
  pose proof (highlightParts_resultFor query m) as Hcat.
  unfold matchesQuery, includes in Hf. apply negb_true_iff, Z.eqb_neq in Hf.
  assert (Hroom : 22 <= defaultMaxLength - len query)
    by (unfold defaultMaxLength; lia).
  pose proof (found_in_snippet _ _ _ Ht Hq Hf Hroom) as Hfound.
  unfold highlightParts, resultFor in *. cbv zeta in *.
  cbn [resultMatchStart resultMatchEnd resultSnippet] in *.
  rewrite (createSnippet_found _ _ _ Hf) in *. cbv zeta in *.
  cbn [matchStart matchEnd snippet] in *.
  set (s := excerpt (getMessageText m) _ _) in *.
  assert (Hs : plainCase s) by (apply plainCase_excerpt; exact Ht).
  destruct (indexOf_found _ _ Hfound) as [Hocc _].
  destruct (occurrence_in_original s query _ Hs Hq Hocc) as (H0 & _ & Heq).
  apply Z.leb_le in H0. rewrite H0 in *.
  eexists _, _, _. split; [reflexivity|]. split; [exact Heq|].
  cbn [List.concat] in Hcat. rewrite app_nil_r in Hcat. exact Hcat.
Qed.

Lemma searchMessages_highlights_query_witness :
  exists before mid after,
    highlightParts (resultFor (lit "Fox") (userMessage (lit "m1") (lit "a fox")))
      = [before; mid; after] /\
    toLowerCase mid = toLowerCase (lit "Fox") /\
    before ++ mid ++ after
      = resultSnippet (resultFor (lit "Fox") (userMessage (lit "m1") (lit "a fox"))).
Proof.
  apply (searchMessages_highlights_query [userMessage (lit "m1") (lit "a fox")] (lit "Fox")).
  - reflexivity.
  - vm_compute. discriminate.
  - vm_compute. left. reflexivity.
  - reflexivity.
Defined.

(** X13: a result labelled "Tool" belongs to a tool call or to an agent event of
    the "message" type: events are found by their message and carry the
    label of the tools. *)
Theorem messageType_tool (messages : list Message) (query : jsstring)
    (r : SearchResult) :
  In r (searchMessages messages query) ->
  messageType (message r) = lit "Tool" ->
  (exists tool, body (message r) = ToolCallBody (Some tool)) \/
  (exists msg, body (message r) = AgentEventBody (EventMessage msg)).
Proof.
  intros Hin Hl. destruct (in_searchMessages _ _ _ Hin) as (Hq & m & _ & Hf & ->).
  pose proof (matching_message_has_text query m Hq Hf) as Ht.
  cbn [resultFor message] in *. unfold messageType, kind, getMessageText in *.
  destruct (body m) as [text|text|[tool|]|[mode|msg|endsAt|ty]|k];
    try discriminate Hl; try (elim Ht; reflexivity); eauto.
Qed.

Lemma messageType_tool_witness :
  let m := mkMessage (lit "m1") 0 (AgentEventBody (EventMessage (lit "Compacted"))) in
  (exists tool, body (message (resultFor (lit "compact") m)) = ToolCallBody (Some tool)) \/
  (exists msg, body (message (resultFor (lit "compact") m)) = AgentEventBody (EventMessage msg)).
Proof.
  apply (messageType_tool
           [mkMessage (lit "m1") 0 (AgentEventBody (EventMessage (lit "Compacted")))]
           (lit "compact")).
  - vm_compute. left. reflexivity.
  - reflexivity.
Defined.

Example snippet_length_114 :
  let text := repeat 97%N 44 ++ lit " " ++ repeat 97%N 55 ++ lit "needle" ++ repeat 97%N 60 in
  len (snippet (createSnippet text (lit "needle") 100)) = 114.
Proof. vm_compute. reflexivity. Qed.

(** ** The collapsible code view: lines *)

Lemma split_nonempty (sep : N) (s : jsstring) : split sep s <> [].
Proof.
  destruct s as [|c t]; cbn [split]; [discriminate|].
  destruct (N.eqb c sep); [discriminate|].
  destruct (split sep t); discriminate.
Qed.

Lemma join_cons (sep p : jsstring) (rest : list jsstring) :
  rest <> [] -> join sep (p :: rest) = p ++ sep ++ join sep rest.
Proof. destruct rest; [congruence | reflexivity]. Qed.

(** Joining the pieces of a string with the separator gives the string
    back. *)
Lemma join_split (sep : N) (s : jsstring) : join [sep] (split sep s) = s.
Proof.
  induction s as [|c t IH]; [reflexivity|]. cbn [split].
  destruct (N.eqb_spec c sep) as [->|Hc].
  - rewrite join_cons by apply split_nonempty. rewrite IH. reflexivity.
  - pose proof (split_nonempty sep t) as Hne.
    destruct (split sep t) as [|piece rest]; [congruence|].
    destruct rest as [|q rest].
    + cbn [join] in *. rewrite IH. reflexivity.
    + rewrite join_cons by discriminate. rewrite join_cons in IH by discriminate.
      rewrite <- IH. reflexivity.
Qed.

Lemma split_app_sep (sep : N) (p s : jsstring) :
  ~ In sep p -> split sep (p ++ sep :: s) = p :: split sep s.
Proof.
  induction p as [|c p IH]; intros Hp.
  - cbn [app split]. rewrite N.eqb_refl. reflexivity.
  - cbn [app split]. destruct (N.eqb_spec c sep) as [->|Hc].
    + elim Hp. vm_compute. left. reflexivity.
    + rewrite IH by (intros H; apply Hp; right; exact H). reflexivity.
Qed.

Lemma split_no_sep (sep : N) (p : jsstring) : ~ In sep p -> split sep p = [p].
Proof.
  induction p as [|c p IH]; intros Hp; [reflexivity|].
  cbn [split]. destruct (N.eqb_spec c sep) as [->|Hc].
  - elim Hp. vm_compute. left. reflexivity.
  - rewrite IH by (intros H; apply Hp; right; exact H). reflexivity.
Qed.

(** Splitting what was joined from pieces without the separator gives the
    pieces back. *)
Lemma split_join (sep : N) (pieces : list jsstring) :
  pieces <> [] -> Forall (fun p => ~ In sep p) pieces ->
  split sep (join [sep] pieces) = pieces.
Proof.
  induction pieces as [|p rest IH]; intros Hne Hall; [congruence|].
  inversion Hall as [|x xs Hp Hrest]; subst.
  destruct rest as [|q rest].
  - cbn [join]. apply split_no_sep. exact Hp.
  - rewrite join_cons by discriminate. cbn [app].
    rewrite split_app_sep by exact Hp. rewrite IH by (discriminate || exact Hrest).
    reflexivity.
Qed.

Lemma split_pieces_no_sep (sep : N) (s : jsstring) :
  Forall (fun p => ~ In sep p) (split sep s).
Proof.
  induction s as [|c t IH]; [repeat constructor; intros []|].
  cbn [split]. destruct (N.eqb_spec c sep) as [->|Hc].
  - constructor; [intros []|exact IH].
  - destruct (split sep t) as [|piece rest]; [repeat constructor; intros [H|[]]; congruence|].
    inversion IH as [|x xs Hp Hrest]; subst. constructor; [|exact Hrest].
    intros [H|H]; [congruence | exact (Hp H)].
Qed.

(** X14: a code of [n] newline characters has [n + 1] lines; the empty code has
    one line. *)
Theorem totalLines_count (code : jsstring) :
  totalLines code = 1 + Z.of_nat (count_occ N.eq_dec code newline).
Proof.
  unfold totalLines, codeLines.
  enough (H : List.length (split newline code)
              = S (count_occ N.eq_dec code newline)) by lia.
  induction code as [|c t IH]; [reflexivity|].
  cbn [split count_occ]. destruct (N.eqb_spec c newline) as [->|Hc].
  - destruct (N.eq_dec newline newline); [|congruence]. cbn [List.length]. rewrite IH. reflexivity.
  - destruct (N.eq_dec c newline); [congruence|].
    destruct (split newline t); [discriminate IH | exact IH].
Qed.

(** ** The collapsible code view: what is displayed *)

Lemma join_app (sep : jsstring) (l1 l2 : list jsstring) :
  l1 <> [] -> l2 <> [] ->
  join sep (l1 ++ l2) = join sep l1 ++ sep ++ join sep l2.
Proof.
  induction l1 as [|p l1 IH]; intros H1 H2; [congruence|].
  destruct l1 as [|q l1].
  - cbn [app]. rewrite join_cons by exact H2. reflexivity.
  - change ((p :: q :: l1) ++ l2) with (p :: ((q :: l1) ++ l2)).
    rewrite join_cons by discriminate. rewrite IH by (discriminate || exact H2).
    rewrite (join_cons sep p (q :: l1)) by discriminate.
    rewrite <- !app_assoc. reflexivity.
Qed.

Lemma join_firstn_skipn (sep : jsstring) (l : list jsstring) (n : nat) :
  (0 < n < List.length l)%nat ->
  join sep l = join sep (firstn n l) ++ sep ++ join sep (skipn n l).
Proof.
  intros Hn. rewrite <- (firstn_skipn n l) at 1. apply join_app.
  - intros H. apply (f_equal (@List.length jsstring)) in H.
    rewrite length_firstn in H. cbn in H. lia.
  - intros H. apply (f_equal (@List.length jsstring)) in H.
    rewrite length_skipn in H. cbn in H. lia.
Qed.

Lemma join_firstn_prefix (sep : jsstring) (l : list jsstring) (n : nat) :
  exists rest, join sep l = join sep (firstn n l) ++ rest.
Proof.
  destruct (Nat.eq_dec n 0) as [->|Hn0].
  - exists (join sep l). reflexivity.
  - destruct (Nat.le_gt_cases (List.length l) n) as [Hge|Hlt].
    + exists []. rewrite firstn_all2 by exact Hge. rewrite app_nil_r. reflexivity.
    + exists (sep ++ join sep (skipn n l)). apply join_firstn_skipn. lia.
Qed.

Lemma arraySlice_prefix {A : Type} (l : list A) (k : Z) :
  arraySlice l 0 k = firstn (Z.to_nat (sliceIndex (Z.of_nat (List.length l)) k)) l.
Proof.
  unfold arraySlice. cbv zeta.
  assert (H0 : sliceIndex (Z.of_nat (List.length l)) 0 = 0)
    by (unfold sliceIndex; cbn; lia).
  rewrite H0, Z.sub_0_r. reflexivity.
Qed.

(** X15: whatever the number of lines to keep and whether expanded or not, the
    displayed code is a prefix of the code. *)
Theorem displayCode_prefix (code : jsstring) (collapsedLines : Z)
    (isExpanded : bool) :
  exists rest, code = displayCode code collapsedLines isExpanded ++ rest.
Proof.
  unfold displayCode.
  destruct (negb (shouldCollapse code collapsedLines) || isExpanded).
  - exists []. rewrite app_nil_r. reflexivity.
  - rewrite arraySlice_prefix. unfold codeLines.
    destruct (join_firstn_prefix [newline] (split newline code)
                (Z.to_nat (sliceIndex (Z.of_nat (List.length (split newline code)))
                             collapsedLines))) as [rest H].
    exists rest. rewrite <- H, join_split. reflexivity.
Qed.

Lemma Forall_firstn {A : Type} (P : A -> Prop) (n : nat) (l : list A) :
  Forall P l -> Forall P (firstn n l).
Proof.
  intros H. rewrite <- (firstn_skipn n l) in H. apply Forall_app in H. tauto.
Qed.

Lemma Forall_skipn {A : Type} (P : A -> Prop) (n : nat) (l : list A) :
  Forall P l -> Forall P (skipn n l).
Proof.
  intros H. rewrite <- (firstn_skipn n l) in H. apply Forall_app in H. tauto.
Qed.

(** X16: a collapsed view of a code with more than [collapsedLines > 0] lines
    displays exactly the first [collapsedLines] lines, and the rest of the
    code, behind a newline, has as many lines as the button announces. *)
Theorem displayCode_collapsed (code : jsstring) (collapsedLines : Z) :
  0 < collapsedLines < totalLines code ->
  let shown := displayCode code collapsedLines false in
  codeLines shown = firstn (Z.to_nat collapsedLines) (codeLines code) /\
  totalLines shown = collapsedLines /\
  exists hidden,
    code = shown ++ newline :: hidden /\
    totalLines hidden = hiddenLines code collapsedLines.
Proof.
  intros Hk. unfold hiddenLines, displayCode, shouldCollapse, totalLines, codeLines in *.
  cbv zeta. set (lines := split newline code) in *.
  assert (Hc : (collapsedLines <? Z.of_nat (List.length lines)) = true)
    by (apply Z.ltb_lt; lia).
  rewrite Hc. cbn [negb orb]. rewrite arraySlice_prefix.
  assert (Hi : sliceIndex (Z.of_nat (List.length lines)) collapsedLines = collapsedLines).
  { unfold sliceIndex. destruct (collapsedLines <? 0) eqn:E;
      [apply Z.ltb_lt in E; lia | lia]. }
  rewrite Hi. set (n := Z.to_nat collapsedLines).
  assert (Hn : (0 < n < List.length lines)%nat) by (unfold n; lia).
  pose proof (split_pieces_no_sep newline code) as Hall. fold lines in Hall.
  assert (Hshown : split newline (join [newline] (firstn n lines)) = firstn n lines).
  { apply split_join; [|apply Forall_firstn; exact Hall].
    intros H. apply (f_equal (@List.length jsstring)) in H.
    rewrite length_firstn in H. cbn in H. lia. }
  rewrite Hshown. split; [reflexivity|]. split.
  - rewrite length_firstn. unfold n. lia.
  - exists (join [newline] (skipn n lines)). split.
    + rewrite <- (join_split newline code) at 1. fold lines.
      apply (join_firstn_skipn [newline] lines n Hn).
    + rewrite split_join.
      * rewrite length_skipn. unfold n. lia.
      * intros H. apply (f_equal (@List.length jsstring)) in H.
        rewrite length_skipn in H. cbn in H. lia.
      * apply Forall_skipn. exact Hall.
Qed.

Lemma displayCode_collapsed_witness :
  let code := lit "a" ++ [newline] ++ lit "b" ++ [newline] ++ lit "c" in
  let shown := displayCode code 2 false in
  codeLines shown = firstn (Z.to_nat 2) (codeLines code) /\
  totalLines shown = 2 /\
  exists hidden, code = shown ++ newline :: hidden /\ totalLines hidden = hiddenLines code 2.
Proof.
  apply (displayCode_collapsed (lit "a" ++ [newline] ++ lit "b" ++ [newline] ++ lit "c") 2).
  vm_compute. split; reflexivity.
Defined.

(** ** The chat footer: durations *)

Example formatDuration_examples :
  formatDuration 5 = lit "5s" /\ formatDuration 65 = lit "1m 5s" /\
  formatDuration 3725 = lit "1h 2m 5s" /\ formatDuration 3600 = lit "1h 0m 0s" /\
  formatDuration (-3) = lit "0s".
Proof. repeat split; reflexivity. Qed.

Lemma digitUnits_inj (d1 d2 : Decimal.uint) :
  digitUnits d1 = digitUnits d2 -> d1 = d2.
Proof.
  revert d2. induction d1; intros d2 H; destruct d2; cbn in H;
    try discriminate H; try reflexivity;
    injection H as H; f_equal; auto.
Qed.

Lemma digitUnits_digits (d : Decimal.uint) :
  Forall (fun c => isDigit c = true) (digitUnits d).
Proof. induction d; cbn; constructor; (reflexivity || assumption). Qed.

Lemma numberToString_nonneg (n : Z) :
  0 <= n -> numberToString n = digitUnits (N.to_uint (Z.to_N n)).
Proof. destruct n; [reflexivity | reflexivity | lia]. Qed.

Lemma numberToString_inj (a b : Z) :
  0 <= a -> 0 <= b -> numberToString a = numberToString b -> a = b.
Proof.
  intros Ha Hb H. rewrite !numberToString_nonneg in H by assumption.
  apply digitUnits_inj in H.
  apply (f_equal N.of_uint) in H. rewrite !DecimalN.Unsigned.of_to in H. lia.
Qed.

Lemma numberToString_digits (n : Z) :
  0 <= n -> Forall (fun c => isDigit c = true) (numberToString n).
Proof.
  intros Hn. rewrite numberToString_nonneg by exact Hn. apply digitUnits_digits.
Qed.

(** Two strings that start with digits followed by a character that is
    not a digit agree on the digits, the character and the rest. *)
Lemma digits_then_other (d1 d2 r1 r2 : jsstring) (x y : N) :
  Forall (fun c => isDigit c = true) d1 -> Forall (fun c => isDigit c = true) d2 ->
  isDigit x = false -> isDigit y = false ->
  d1 ++ x :: r1 = d2 ++ y :: r2 -> d1 = d2 /\ x = y /\ r1 = r2.
Proof.
  intros H1. revert d2. induction H1 as [|c d1 Hc _ IH]; intros d2 H2 Hx Hy H.
  - destruct H2 as [|c' d2 Hc' _].
    + cbn in H. injection H as -> ->. auto.
    + cbn in H. injection H as -> _. congruence.
  - destruct H2 as [|c' d2 Hc' H2].
    + cbn in H. injection H as -> _. congruence.
    + cbn in H. injection H as -> H.
      destruct (IH d2 H2 Hx Hy H) as (-> & -> & ->). auto.
Qed.

Lemma formatDuration_durationText (seconds : Z) :
  0 <= seconds ->
  formatDuration seconds =
  durationText (seconds / 3600) (seconds mod 3600 / 60) (seconds mod 60).
Proof.
  intros H. unfold formatDuration, durationText.
  destruct (seconds <? 0) eqn:E; [apply Z.ltb_lt in E; lia|].
  cbv zeta. rewrite !Z.rem_mod_nonneg by lia.
  destruct (0 <? seconds / 3600); cbn [orb].
  - rewrite <- !app_assoc. reflexivity.
  - cbn [app]. destruct (0 <? seconds mod 3600 / 60).
    + rewrite <- !app_assoc. reflexivity.
    + reflexivity.
Qed.

Lemma duration_parts (seconds : Z) :
  0 <= seconds ->
  0 <= seconds / 3600 /\ 0 <= seconds mod 3600 / 60 < 60 /\
  0 <= seconds mod 60 < 60 /\
  seconds = 3600 * (seconds / 3600) + 60 * (seconds mod 3600 / 60) + seconds mod 60.
Proof.
  intros H.
  pose proof (Z.div_mod seconds 3600 ltac:(lia)) as H1.
  pose proof (Z.mod_pos_bound seconds 3600 ltac:(lia)) as H2.
  pose proof (Z.div_mod (seconds mod 3600) 60 ltac:(lia)) as H3.
  pose proof (Z.mod_pos_bound (seconds mod 3600) 60 ltac:(lia)) as H4.
  assert (H5 : (seconds mod 3600) mod 60 = seconds mod 60).
  { symmetry. rewrite H1 at 1. replace (3600 * (seconds / 3600)) with ((60 * (seconds / 3600)) * 60) by lia.
    rewrite Z.add_comm, Z.mod_add by lia. reflexivity. }
  pose proof (Z.div_pos seconds 3600 H ltac:(lia)).
  pose proof (Z.div_pos (seconds mod 3600) 60 ltac:(lia) ltac:(lia)).
  pose proof (Z.div_lt_upper_bound (seconds mod 3600) 60 60 ltac:(lia) ltac:(lia)).
  pose proof (Z.mod_pos_bound seconds 60 ltac:(lia)). lia.
Qed.

(** X17: a duration that is not negative is displayed as its hours, minutes and
    seconds: the three numbers add up to the duration, the minutes and the
    seconds are below 60, and the hours (and the minutes, without hours) are
    left out when they are 0. *)
Theorem formatDuration_parts (seconds : Z) :
  0 <= seconds <= maxSafeInteger ->
  exists h m s,
    0 <= h /\ 0 <= m < 60 /\ 0 <= s < 60 /\
    seconds = 3600 * h + 60 * m + s /\
    formatDuration seconds = durationText h m s.
Proof.
  intros [H _]. exists (seconds / 3600), (seconds mod 3600 / 60), (seconds mod 60).
  destruct (duration_parts seconds H) as (Hh & Hm & Hs & Hsum).
  repeat split; try lia. apply formatDuration_durationText. exact H.
Qed.

Lemma formatDuration_parts_witness :
  exists h m s,
    0 <= h /\ 0 <= m < 60 /\ 0 <= s < 60 /\
    3725 = 3600 * h + 60 * m + s /\
    formatDuration 3725 = durationText h m s.
Proof.
  apply formatDuration_parts. unfold maxSafeInteger. lia.
Defined.

Lemma durationText_hours (h m s : Z) :
  0 < h ->
  durationText h m s =
  numberToString h ++ 104%N :: 32%N :: numberToString m
    ++ 109%N :: 32%N :: numberToString s ++ [115%N].
Proof.
  intros H. unfold durationText. apply Z.ltb_lt in H. rewrite H. cbn [orb].
  rewrite <- !app_assoc. reflexivity.
Qed.

Lemma durationText_minutes (m s : Z) (h : Z) :
  h <= 0 -> 0 < m ->
  durationText h m s =
  numberToString m ++ 109%N :: 32%N :: numberToString s ++ [115%N].
Proof.
  intros Hh H. unfold durationText. apply Z.ltb_lt in H. rewrite H.
  apply Z.ltb_ge in Hh. rewrite Hh. cbn [orb app].
  rewrite <- !app_assoc. reflexivity.
Qed.

Lemma durationText_seconds (h m s : Z) :
  h <= 0 -> m <= 0 -> durationText h m s = numberToString s ++ [115%N].
Proof.
  intros Hh Hm. unfold durationText.
  apply Z.ltb_ge in Hh, Hm. rewrite Hh, Hm. reflexivity.
Qed.

Ltac split_digits H :=
  apply digits_then_other in H;
  [ | apply numberToString_digits; assumption
    | apply numberToString_digits; assumption
    | reflexivity | reflexivity ].

Lemma durationText_inj (h m s h' m' s' : Z) :
  0 <= h -> 0 <= m -> 0 <= s -> 0 <= h' -> 0 <= m' -> 0 <= s' ->
  durationText h m s = durationText h' m' s' ->
  h = h' /\ m = m' /\ s = s'.
Proof.
  intros Hh Hm Hs Hh' Hm' Hs' H.
  destruct (Z.lt_ge_cases 0 h) as [Ph|Ph];
    [rewrite (durationText_hours h m s Ph) in H
    |destruct (Z.lt_ge_cases 0 m) as [Pm|Pm];
     [rewrite (durationText_minutes m s h Ph Pm) in H
     |rewrite (durationText_seconds h m s Ph Pm) in H]];
  (destruct (Z.lt_ge_cases 0 h') as [Ph'|Ph'];
    [rewrite (durationText_hours h' m' s' Ph') in H
    |destruct (Z.lt_ge_cases 0 m') as [Pm'|Pm'];
     [rewrite (durationText_minutes m' s' h' Ph' Pm') in H
     |rewrite (durationText_seconds h' m' s' Ph' Pm') in H]]);
  split_digits H; destruct H as (H1 & Hx & H2); try discriminate Hx.
  - apply numberToString_inj in H1; try assumption.
    injection H2 as H2. split_digits H2. destruct H2 as (H3 & _ & H4).
    apply numberToString_inj in H3; try assumption.
    injection H4 as H4. split_digits H4. destruct H4 as (H5 & _ & _).
    apply numberToString_inj in H5; try assumption. auto.
  - apply numberToString_inj in H1; try assumption.
    injection H2 as H2. split_digits H2. destruct H2 as (H3 & _ & _).
    apply numberToString_inj in H3; try assumption.
    repeat split; lia.
  - apply numberToString_inj in H1; try assumption. repeat split; lia.
Qed.

(** X18: two different durations that are not negative are displayed
    differently. *)
Theorem formatDuration_injective (a b : Z) :
  0 <= a <= maxSafeInteger -> 0 <= b <= maxSafeInteger ->
  a <> b -> formatDuration a <> formatDuration b.
Proof.
  intros [Ha _] [Hb _] Hab H. apply Hab.
  rewrite !formatDuration_durationText in H by assumption.
  destruct (duration_parts a Ha) as (Ah & Am & As & Asum).
  destruct (duration_parts b Hb) as (Bh & Bm & Bs & Bsum).
  apply durationText_inj in H; try lia.
Qed.

Lemma formatDuration_injective_witness :
  formatDuration 3599 <> formatDuration 3600.
Proof.
  apply formatDuration_injective; unfold maxSafeInteger; lia.
Defined.

(** X19: for timestamps of the safe integer range that are not negative,
    the elapsed time is the number of whole seconds between the start and
    now, and 0 when the clock is behind the start; it is never negative. *)
Theorem updateElapsed_whole_seconds (startTimestamp now : Z) :
  0 <= startTimestamp <= maxSafeInteger -> 0 <= now <= maxSafeInteger ->
  let elapsed := updateElapsed startTimestamp now in
  0 <= elapsed /\
  (now < startTimestamp -> elapsed = 0) /\
  (startTimestamp <= now ->
   1000 * elapsed <= now - startTimestamp < 1000 * elapsed + 1000).
Proof.
  intros _ _. unfold updateElapsed. cbv zeta.
  pose proof (Z.div_mod (now - startTimestamp) 1000 ltac:(lia)) as H1.
  pose proof (Z.mod_pos_bound (now - startTimestamp) 1000 ltac:(lia)) as H2.
  split; [lia|]. split; intros H.
  - assert ((now - startTimestamp) / 1000 < 0) by (apply Z.div_lt_upper_bound; lia). lia.
  - assert (0 <= (now - startTimestamp) / 1000) by (apply Z.div_pos; lia). lia.
Qed.

Lemma updateElapsed_whole_seconds_witness :
  0 <= updateElapsed 1000 4500 /\
  (4500 < 1000 -> updateElapsed 1000 4500 = 0) /\
  (1000 <= 4500 ->
   1000 * updateElapsed 1000 4500 <= 4500 - 1000 < 1000 * updateElapsed 1000 4500 + 1000).
Proof.
  apply (updateElapsed_whole_seconds 1000 4500); unfold maxSafeInteger; lia.
Defined.
